(** * samers.py: duplication audit and copyright-notice insertion

    A shallow embedding of [IntegrationGuideForAndroid/Apps/samers.py].

    Text files are modelled by the text that Python reads from them in text
    mode (universal newlines: every line end is the single character LF).
    Characters are 8-bit codes.  A generator is modelled by the trace of
    events it produces when it is run to its end: a [Yield] per value and a
    final [Raise] when it stops with an exception. *)

From Stdlib Require Import List Arith Lia Bool Ascii String DecimalString.
Import ListNotations.

Open Scope string_scope.
Open Scope nat_scope.
Open Scope list_scope.

Notation "s +:+ t" := (String.append s t) (at level 60, right associativity).

(** ** Python strings *)

Module Str.

Definition LF : ascii := "010"%char.
Definition nl : string := String LF EmptyString.
Definition dq : string := String "034"%char EmptyString.

(** [str.isspace] on one character with a code below 256. *)
Definition isspace (c : ascii) : bool :=
  let n := nat_of_ascii c in
  ((9 <=? n) && (n <=? 13)) || ((28 <=? n) && (n <=? 32))
  || (n =? 133) || (n =? 160).

(** [s.startswith(p)] *)
Fixpoint startswith (s p : string) {struct p} : bool :=
  match p with
  | EmptyString => true
  | String a p' =>
      match s with
      | EmptyString => false
      | String b s' => Ascii.eqb a b && startswith s' p'
      end
  end.

(** [s.find(sub)]: the lowest index where [sub] occurs, or -1. *)
Fixpoint find (s sub : string) : option nat :=
  if startswith s sub then Some 0
  else match s with
       | EmptyString => None
       | String _ s' => option_map S (find s' sub)
       end.

(** [s.find(sub) >= 0] *)
Definition found (s sub : string) : bool :=
  match find s sub with Some _ => true | None => false end.

Fixpoint lstrip (s : string) : string :=
  match s with
  | EmptyString => EmptyString
  | String c s' => if isspace c then lstrip s' else s
  end.

Fixpoint rstrip (s : string) : string :=
  match s with
  | EmptyString => EmptyString
  | String c s' =>
      match rstrip s' with
      | EmptyString => if isspace c then EmptyString else String c EmptyString
      | r => String c r
      end
  end.

(** [s.strip()] *)
Definition strip (s : string) : string := rstrip (lstrip s).

(** [sep.join(parts)] *)
Definition join (sep : string) (parts : list string) : string :=
  String.concat sep parts.

(** Concatenation of strings written one after the other. *)
Definition cat (parts : list string) : string :=
  fold_right String.append EmptyString parts.

(** [file.readlines()], also the lines a [for line in file] loop sees: the
    text cut after every LF, each line keeping its LF. *)
Fixpoint readlines (s : string) : list string :=
  match s with
  | EmptyString => []
  | String c s' =>
      if Ascii.eqb c LF then String c EmptyString :: readlines s'
      else match readlines s' with
           | [] => [String c EmptyString]
           | l :: ls => String c l :: ls
           end
  end.

(** [str(n)] for a natural number. *)
Definition of_nat (n : nat) : string := NilEmpty.string_of_uint (Nat.to_uint n).

Fixpoint spaces (n : nat) : string :=
  match n with O => EmptyString | S k => String " "%char (spaces k) end.

(** [f'{n:>w}'] *)
Definition of_nat_right (w n : nat) : string :=
  let s := of_nat n in spaces (w - String.length s) +:+ s.

(** [s.lower()] on one character with a code below 256. *)
Definition lower_char (c : ascii) : ascii :=
  let n := nat_of_ascii c in
  if ((65 <=? n) && (n <=? 90))
     || ((192 <=? n) && (n <=? 214)) || ((216 <=? n) && (n <=? 222))
  then ascii_of_nat (n + 32) else c.

Fixpoint lower (s : string) : string :=
  match s with
  | EmptyString => EmptyString
  | String c s' => String (lower_char c) (lower s')
  end.

(** No line end inside the string. *)
Fixpoint no_nl (s : string) : Prop :=
  match s with
  | EmptyString => True
  | String c s' => c <> LF /\ no_nl s'
  end.

End Str.

(** ** Paths and the file system *)

Module PathLib.

(** A [pathlib.Path], by its normalised text. *)
Definition Path := string.

(** [s.rpartition(c)] when [c] occurs: the text before the last [c], and the
    text from it on. *)
Fixpoint rpartition (c : ascii) (s : string) : option (string * string) :=
  match s with
  | EmptyString => None
  | String a s' =>
      match rpartition c s' with
      | Some (pre, suf) => Some (String a pre, suf)
      | None => if Ascii.eqb a c then Some (EmptyString, s) else None
      end
  end.

(** [path.name]: the final component. *)
Definition name (p : Path) : string :=
  match rpartition "/"%char p with
  | Some (_, String _ n) => n
  | _ => p
  end.

(** The test [0 < i < len(name) - 1] of [PurePath.suffix] and
    [PurePath.stem], where [i = name.rfind('.')]. *)
Definition dot_split (n : string) : option (string * string) :=
  match rpartition "."%char n with
  | Some (String a pre, String d (String b suf)) =>
      Some (String a pre, String d (String b suf))
  | _ => None
  end.

(** [path.suffix] *)
Definition suffix (p : Path) : string :=
  match dot_split (name p) with Some (_, suf) => suf | None => EmptyString end.

(** [path.stem] *)
Definition stem (p : Path) : string :=
  match dot_split (name p) with Some (pre, _) => pre | None => name p end.

(** [Path(top, name)] for a relative [name]. *)
Definition joinpath (top n : string) : Path :=
  if Str.startswith n "/" then n
  else if String.eqb top "" || String.eqb top "." then n
  else top +:+ "/" +:+ n.

Inductive node : Type :=
| Dir
| File (text : string).

Definition FS := Path -> option node.

Definition is_dir (fs : FS) (p : Path) : bool :=
  match fs p with Some Dir => true | _ => false end.

Definition write_file (fs : FS) (p : Path) (text : string) : FS :=
  fun q => if String.eqb q p then Some (File text) else fs q.

End PathLib.
Import PathLib.

(** ** Exceptions, generators *)

Inductive exn : Type :=
| ValueError (msg : string)
| RuntimeError (msg : string)
| TypeError (msg : string)
| UnboundLocalError (variable : string)
| AttributeError (attribute : string)
| OSError (path : Path)
| EOFError.

Inductive result (A : Type) : Type :=
| Ok (a : A)
| Raised (e : exn).
Arguments Ok {A} a.
Arguments Raised {A} e.

Inductive event (A : Type) : Type :=
| Yield (a : A)
| Raise (e : exn).
Arguments Yield {A} a.
Arguments Raise {A} e.

(** What a consumer receives from a generator before it stops. *)
Fixpoint yielded {A} (t : list (event A)) : list A :=
  match t with
  | Yield a :: t' => a :: yielded t'
  | _ => []
  end.

(** The exception that ends the generator, if one does. *)
Fixpoint raised {A} (t : list (event A)) : option exn :=
  match t with
  | [] => None
  | Yield _ :: t' => raised t'
  | Raise e :: _ => Some e
  end.

(** [path.open()] followed by reading the whole text. *)
Definition open_read (fs : FS) (p : Path) : result string :=
  match fs p with
  | Some (File text) => Ok text
  | _ => Raised (OSError p)
  end.

(** ** The world: files, terminal, temporary names *)

Record World : Type := mkWorld {
  fs : FS;
  stdin : list string;      (* the answers still to be typed at the prompt *)
  stdout : string;          (* everything printed so far *)
  temps : nat;              (* temporary files created so far *)
  git_output : string       (* what `git ls-files -z` prints *)
}.

Definition M (A : Type) : Type := World -> result A * World.

Definition ret {A} (a : A) : M A := fun w => (Ok a, w).
Definition raise {A} (e : exn) : M A := fun w => (Raised e, w).
Definition bind {A B} (m : M A) (k : A -> M B) : M B :=
  fun w => match m w with
           | (Ok a, w') => k a w'
           | (Raised e, w') => (Raised e, w')
           end.

Notation "x <- m ;; k" := (bind m (fun x => k))
  (at level 61, m at next level, right associativity).
Notation "m ;;; k" := (bind m (fun _ => k))
  (at level 61, right associativity).

Definition lift {A} (f : FS -> result A) : M A := fun w => (f (fs w), w).

(** [print(s)] *)
Definition print (s : string) : M unit :=
  fun w => (Ok tt, mkWorld (fs w) (stdin w) (stdout w +:+ s +:+ Str.nl) (temps w) (git_output w)).

(** [input(prompt)] *)
Definition input (prompt : string) : M string :=
  fun w => match stdin w with
           | [] => (Raised EOFError,
                    mkWorld (fs w) [] (stdout w +:+ prompt) (temps w) (git_output w))
           | answer :: rest =>
               (Ok answer, mkWorld (fs w) rest (stdout w +:+ prompt) (temps w) (git_output w))
           end.

(** [shutil.copy(source, destination)], the destination not a directory. *)
Definition copy (source destination : Path) : M unit :=
  fun w => match open_read (fs w) source with
           | Raised e => (Raised e, w)
           | Ok text =>
               (Ok tt, mkWorld (write_file (fs w) destination text)
                               (stdin w) (stdout w) (temps w) (git_output w))
           end.

(** [NamedTemporaryFile(mode='wt', delete=False, prefix=..., suffix=...)]:
    a new empty file; the random part of its name is the count of temporary
    files made so far. *)
Definition NamedTemporaryFile (prefix suffix : string) : M Path :=
  fun w =>
    let p := "/tmp/" +:+ prefix +:+ Str.of_nat (temps w) +:+ suffix in
    (Ok p, mkWorld (write_file (fs w) p "") (stdin w) (stdout w) (S (temps w)) (git_output w)).

(** Closing the file written through [editedFile.write]. *)
Definition flush (p : Path) (text : string) : M unit :=
  fun w => (Ok tt, mkWorld (write_file (fs w) p text) (stdin w) (stdout w) (temps w) (git_output w)).

(** [file.write(s)] on the text written so far. *)
Definition write (file s : string) : string := file +:+ s.

(** [x in xs] for strings. *)
Definition in_list (x : string) (xs : list string) : bool :=
  existsb (String.eqb x) xs.

(** ** NoticesEditor *)

Section Samers.

(** [difflib.context_diff(a, b, fromfile=..., tofile=...)], run to its end. *)
Variable context_diff : list string -> list string -> string -> string -> list string.

Record NoticesEditor : Type := mkNoticesEditor {
  _noticesLines : list string;
  _noticesXML : string
}.

Definition _leader_suffixes_map : list (string * list string) :=
  [ ("#", [".gitignore"; ".pro"; ".properties"; ".py"]);
    ("//", [".gradle"; ".java"; ".kt"]) ].

Definition _exempt_suffixes : list string := [".png"].

Definition _custom_suffixes_map : list (string * string) :=
  [ (".xml", "xml_editor") ].

(** [NoticesEditor.__init__], after the notices file has been read. *)
Definition NoticesEditor_of_text (noticesText : string) : NoticesEditor :=
  let noticesLines := map Str.strip (Str.readlines noticesText) in
  mkNoticesEditor noticesLines
    (Str.join Str.nl
       ("<!--" :: map (fun line => "    " +:+ line) noticesLines
               ++ ["-->" +:+ Str.nl])).

Definition NoticesEditor_init (noticesPath : Path) : M NoticesEditor :=
  noticesText <- lift (fun fs => open_read fs noticesPath) ;;
  ret (NoticesEditor_of_text noticesText).

Definition _effective_suffix (path : Path) : string :=
  if String.eqb (suffix path) "" && Str.startswith (name path) "."
  then name path
  else suffix path.

(** The loop of [check] over the lines of the file.  [nth_error] is [None]
    where Python raises [IndexError]. *)
Fixpoint check_loop (noticesLines file : list string) (linesFound : nat)
  : bool * nat :=
  match file with
  | [] => (false, linesFound)
  | line :: file' =>
      match nth_error noticesLines linesFound with
      | Some notice =>
          if Str.found line notice
          then check_loop noticesLines file' (S linesFound)
          else check_loop noticesLines file' linesFound
      | None => (true, linesFound)
      end
  end.

Definition check (self : NoticesEditor) (fs : FS) (path : Path)
  : result (bool * option nat) :=
  let suffix := _effective_suffix path in
  if in_list suffix _exempt_suffixes then Ok (true, None)
  else
    match open_read fs path with
    | Raised e => Raised e
    | Ok text =>
        let (noticeOK, linesFound) :=
          check_loop (_noticesLines self) (Str.readlines text) 0 in
        Ok (noticeOK, Some linesFound)
    end.

(** The [enumerate(originalFile)] loop of [_leader_editor]. *)
Fixpoint leader_copy (index : nat) (originalFile : list string)
  (editedFile : string) : string :=
  match originalFile with
  | [] => editedFile
  | line :: rest =>
      let editedFile :=
        if (index =? 0) && negb (String.eqb (Str.strip line) "")
        then write editedFile Str.nl
        else editedFile in
      leader_copy (S index) rest (write editedFile line)
  end.

Definition _leader_editor (self : NoticesEditor) (commentLead : string)
  (originalFile : list string) (editedFile : string) : string :=
  let editedFile :=
    fold_left
      (fun editedFile line =>
         write (write (write (write editedFile commentLead) " ") line) Str.nl)
      (_noticesLines self) editedFile in
  leader_copy 0 originalFile editedFile.

(** [originalFile.readline()]: the next line, or the empty string at the end
    of the file. *)
Definition readline (originalFile : list string) : string * list string :=
  match originalFile with
  | [] => ("", [])
  | line :: rest => (line, rest)
  end.

(** The [while line != ''] loop of [xml_editor]. *)
Fixpoint xml_copy (line : string) (originalFile : list string)
  (editedFile : string) : string :=
  if String.eqb line "" then editedFile
  else
    let editedFile := write editedFile line in
    match originalFile with
    | [] => editedFile
    | next :: rest => xml_copy next rest editedFile
    end.

Definition xml_editor (self : NoticesEditor) (originalFile : list string)
  (editedFile : string) : string :=
  let (line, originalFile) := readline originalFile in
  let editedFile :=
    if Str.startswith line "<?xml"
    then write (write editedFile line) (_noticesXML self)
    else write (write editedFile (_noticesXML self)) line in
  let (line, originalFile) := readline originalFile in
  xml_copy line originalFile editedFile.

(** [getattr(self, customEditorName)]: the bound method of that name. *)
Definition getattr_editor (self : NoticesEditor) (customEditorName : string)
  : option (list string -> string -> string) :=
  if String.eqb customEditorName "xml_editor" then Some (xml_editor self)
  else None.

(** [d[key]] on a dictionary; [None] is [KeyError]. *)
Fixpoint dict_get {V} (d : list (string * V)) (key : string) : option V :=
  match d with
  | [] => None
  | (k, v) :: d' => if String.eqb k key then Some v else dict_get d' key
  end.

(** The loop that binds [commentLead]; [None] when it leaves it unbound. *)
Fixpoint find_leader (items : list (string * list string)) (suffix : string)
  : option string :=
  match items with
  | [] => None
  | (key, suffixList) :: items' =>
      if in_list suffix suffixList then Some key
      else find_leader items' suffix
  end.

Definition _editor_differences (originalPath editedPath : Path)
  : M (list string) :=
  originalText <- lift (fun fs => open_read fs originalPath) ;;
  editedText <- lift (fun fs => open_read fs editedPath) ;;
  ret (context_diff (Str.readlines originalText) (Str.readlines editedText)
         originalPath "Edited").

Definition insert (self : NoticesEditor) (originalPath : Path)
  : M (Path * list string) :=
  let suffix := _effective_suffix originalPath in
  match
    match dict_get _custom_suffixes_map suffix with
    | Some customEditorName =>
        match getattr_editor self customEditorName with
        | Some method => Ok (Some method)
        | None => Raised (AttributeError customEditorName)
        end
    | None => Ok None
    end
  with
  | Raised e => raise e
  | Ok customEditor =>
      let commentLead := find_leader _leader_suffixes_map suffix in
      editedPath <- NamedTemporaryFile (stem originalPath +:+ "_")
                      (PathLib.suffix originalPath) ;;
      originalText <- lift (fun fs => open_read fs originalPath) ;;
      let originalFile := Str.readlines originalText in
      editedText <-
        match customEditor with
        | None =>
            match commentLead with
            | None => raise (UnboundLocalError "commentLead")
            | Some commentLead =>
                ret (_leader_editor self commentLead originalFile "")
            end
        | Some customEditor => ret (customEditor originalFile "")
        end ;;
      flush editedPath editedText ;;;
      differences <- _editor_differences originalPath editedPath ;;
      ret (editedPath, differences)
  end.

(** ** glob_each, diff_each *)

(** [path.glob(pattern)] run to its end, for the top directory of the audit. *)
Variable glob : string -> list Path.

Fixpoint glob_each (patterns : list string) : list (event Path) :=
  match patterns with
  | [] => []
  | pattern :: patterns' =>
      let matches := glob pattern in
      map Yield matches
      ++ (if List.length matches =? 0
          then [Raise (ValueError
                  ("Failed, no match for " +:+ Str.dq +:+ pattern +:+ Str.dq +:+ "."))]
          else if List.length matches =? 1
          then [Raise (ValueError
                  ("Failed, only one match for " +:+ Str.dq +:+ pattern +:+ Str.dq
                   +:+ ": " +:+ nth 0 matches "" +:+ "."))]
          else glob_each patterns')
  end.

(** The pattern has two matches or more: [glob_each] does not raise for it. *)
Definition matches_many (pattern : string) : Prop :=
  2 <= List.length (glob pattern).

Definition diff_tuple : Type := Path * Path * option (list string).

(** The [for path in paths] loop of [diff_each].  [left] holds [pathLeft]
    and [linesLeft], which are both [None] or both set. *)
Fixpoint diff_each_loop (fs : FS) (paths : list (event Path))
  (left : option (Path * list string)) : list (event diff_tuple) :=
  match paths with
  | [] => []
  | Raise e :: _ => [Raise e]
  | Yield path :: paths' =>
      match open_read fs path with
      | Raised e => [Raise e]
      | Ok text =>
          let lines := Str.readlines text in
          match left with
          | None => diff_each_loop fs paths' (Some (path, lines))
          | Some (pathLeft, linesLeft) =>
              if String.eqb path pathLeft then diff_each_loop fs paths' left
              else
                let differences := context_diff linesLeft lines pathLeft path in
                Yield (pathLeft, path,
                       if 0 <? List.length differences
                       then Some differences else None)
                :: diff_each_loop fs paths' left
          end
      end
  end.

Definition diff_each (fs : FS) (paths : list (event Path))
  (pathLeft : option Path) : list (event diff_tuple) :=
  match pathLeft with
  | None => diff_each_loop fs paths None
  | Some pathLeft =>
      match open_read fs pathLeft with
      | Raised e => [Raise e]
      | Ok text => diff_each_loop fs paths (Some (pathLeft, Str.readlines text))
      end
  end.

(** The differences that [diff_each] yields for [path] against [pathLeft],
    when [text] gives the text of the files: [None] for an empty diff. *)
Definition differences_between (text : Path -> string) (pathLeft path : Path)
  : option (list string) :=
  let differences :=
    context_diff (Str.readlines (text pathLeft)) (Str.readlines (text path))
      pathLeft path in
  if 0 <? List.length differences then Some differences else None.

(** ** Rules *)

Definition _java_kt (stubs : list string) : list string :=
  flat_map
    (fun stub =>
       map (fun extension => "**/" +:+ stub +:+ "." +:+ extension)
         ["java"; "kt"])
    stubs.

Definition simplePatterns : list string :=
  [ "nuffin"; "samers*";
    "**/proguard-rules.pro"; "**/buildBase.gradle";
    "**/downloadClient.gradle"; "**/integrateClient.gradle";
    "**/downloadFramework.gradle"; "**/integrateFramework.gradle" ]
  ++ _java_kt
       [ "AirWatchSDKIntentService"; "BaseActivity"; "Application";
         "AWApplication"; "BrandingManager"; "BitmapBrandingManager" ]
  ++ [ "base*/build.gradle"; "client*/build.gradle";
       "brandDynamicDelegate*/build.gradle";
       "brandDynamicExtend*/build.gradle";
       "brandEnterprise*Delegate*/**/build.gradle";
       "brandEnterprise*Extend*/**/build.gradle";
       "brandStatic*/**/styles.xml"; "brandDynamic*/**/strings.xml";
       "base*/**/main/AndroidManifest.xml";
       "client*/**/main/AndroidManifest.xml";
       "brandDynamic*Java/**/MainActivity.java";
       "brandDynamic*Kotlin/**/MainActivity.kt" ].

Definition namedPatternLists : list (string * list string) :=
  [ ("unbranded styles.xml files",
     [ "base*/**/styles.xml"; "client*/**/styles.xml";
       "framework*/**/styles.xml" ]);
    ("unbranded strings.xml files",
     [ "base*/**/strings.xml"; "client*/**/strings.xml";
       "framework*/**/strings.xml"; "brandEnterpriseOnly*/**/strings.xml" ]);
    ("application branded strings.xml files",
     [ "brandStatic*/**/strings.xml";
       "brandEnterprisePriority*/**/strings.xml" ]);
    ("framework manifests",
     [ "framework*/**/main/AndroidManifest.xml";
       "brand*/**/main/AndroidManifest.xml" ]);
    ("framework build.gradle files",
     [ "frameworkExtend*/**/build.gradle";
       "brandStaticExtend*/**/build.gradle" ]);
    ("base MainActivity.java files",
     [ "framework*/**/MainActivity.java";
       "brandEnterprise*/**/MainActivity.java";
       "brandStatic*/**/MainActivity.java" ]);
    ("base MainActivity.kt files",
     [ "framework*/**/MainActivity.kt";
       "brandEnterprise*/**/MainActivity.kt";
       "brandStatic*/**/MainActivity.kt" ]) ].

Definition named_lists : list (string * list string) :=
  map (fun simplePattern =>
         (Str.dq +:+ simplePattern +:+ Str.dq, [simplePattern]))
    simplePatterns
  ++ namedPatternLists.

(** [named_globs] over a rule table: each description with the generator
    [glob_each(self._topPath, patterns)]. *)
Definition named_globs_of (lists : list (string * list string))
  : list (string * list (event Path)) :=
  map (fun '(description, patterns) => (description, glob_each patterns)) lists.

Definition named_globs : list (string * list (event Path)) :=
  named_globs_of named_lists.

(** ** DuplicatorJob *)

Record DuplicatorJob : Type := mkJob {
  counting : bool;
  insertNotices : bool;
  notices : string;
  originals : list string;
  top : string;
  verbose : bool;
  yes : bool
}.

(** [str(paths)] for a list of paths. *)
Definition repr_paths (paths : list Path) : string :=
  "[" +:+ Str.join ", " (map (fun p => "PosixPath('" +:+ p +:+ "')") paths)
  +:+ "]".

(** The [for ... in diff_each(paths)] loop of [diff_all], to the end of the
    generator or to the exception that it raises. *)
Fixpoint diff_all_collect (tuples : list (event diff_tuple))
  (pathsFound : option (list Path)) (pathDifferences lineDifferences : list string)
  : result (option (list Path) * list string * list string) :=
  match tuples with
  | [] => Ok (pathsFound, pathDifferences, lineDifferences)
  | Raise e :: _ => Raised e
  | Yield (pathLeft, path, differences) :: tuples' =>
      let pathsFound :=
        match pathsFound with None => [pathLeft] | Some found => found end
        ++ [path] in
      match differences with
      | Some differences =>
          diff_all_collect tuples' (Some pathsFound)
            (pathDifferences ++ [path]) (lineDifferences ++ differences)
      | None =>
          diff_all_collect tuples' (Some pathsFound)
            pathDifferences lineDifferences
      end
  end.

(** One turn of the loop of [diff_all]: what is written to [report] for one
    description, or the exception that leaves [diff_all]. *)
Definition diff_all_body (self : DuplicatorJob) (fs : FS)
  (description : string) (paths : list (event Path)) (report : string)
  : result string :=
  match diff_all_collect (diff_each fs paths None) None [] [] with
  | Raised (ValueError error) => Ok (write (write report error) Str.nl)
  | Raised e => Raised e
  | Ok (pathsFound, pathDifferences, lineDifferences) =>
      let pathCount :=
        match pathsFound with None => 0 | Some found => List.length found end in
      if pathCount <=? 0 then
        Ok (write report
              ("Failed, no match for " +:+ description +:+ "." +:+ Str.nl))
      else if pathCount <? 2 then
        Ok (write report
              ("Failed, only one match for " +:+ description +:+ ": "
               +:+ Str.dq
               +:+ repr_paths (match pathsFound with None => [] | Some f => f end)
               +:+ Str.dq +:+ Str.nl))
      else if 0 <? List.length pathDifferences then
        let report :=
          write report
            ("Differences " +:+ description +:+ " " +:+ Str.dq
             +:+ nth 0 (match pathsFound with None => [] | Some f => f end) ""
             +:+ Str.dq +:+ Str.nl) in
        if verbose self then
          Ok (fold_left (fun report difference =>
                           write report ("    " +:+ difference))
                lineDifferences report)
        else
          Ok (fold_left (fun report difference =>
                           write report
                             ("    " +:+ Str.dq +:+ difference +:+ Str.dq +:+ Str.nl))
                pathDifferences report)
      else
        Ok (write report
              ("OK " +:+ Str.of_nat_right 2 pathCount +:+ " matches for "
               +:+ description +:+ "." +:+ Str.nl))
  end.

Fixpoint diff_all_loop (self : DuplicatorJob) (fs : FS)
  (globs : list (string * list (event Path))) (report : string)
  : result string :=
  match globs with
  | [] => Ok report
  | (description, paths) :: globs' =>
      match diff_all_body self fs description paths report with
      | Raised e => Raised e
      | Ok report => diff_all_loop self fs globs' report
      end
  end.

Definition diff_all (self : DuplicatorJob) (fs : FS) (report : string)
  : result string :=
  diff_all_loop self fs named_globs report.

(** The [while True] loop of [_ask_overwrite].  A turn that does not return
    has read one answer, so [answers], the answers not yet typed when the
    loop starts, always has the next turn. *)
Fixpoint ask_loop (self : DuplicatorJob) (pathSource pathDestination : Path)
  (differences : list string) (answers : list string) : M (option bool) :=
  response <- (if yes self then ret "yes"
               else (answer <- input "    Overwrite? (Y/n/?)" ;;
                     ret (Str.lower answer))) ;;
  if String.eqb response "" || Str.startswith response "y" then
    print "Overwriting." ;;;
    copy pathSource pathDestination ;;;
    ret (Some true)
  else if Str.startswith response "n" then
    print "Keeping" ;;;
    ret (Some false)
  else
    (if String.eqb response "?" then print (Str.cat differences)
     else print ("Unrecognised " +:+ Str.dq +:+ response +:+ Str.dq
                 +:+ ". Ctrl-C to quit.")) ;;;
    match answers with
    | [] => raise EOFError
    | _ :: answers' =>
        ask_loop self pathSource pathDestination differences answers'
    end.

(** [None] is Python's [None]. *)
Definition _ask_overwrite (self : DuplicatorJob) (pathSource pathDestination : Path)
  (differences : option (list string)) : M (option bool) :=
  match differences with
  | None =>
      print ("    Same " +:+ Str.dq +:+ pathDestination +:+ Str.dq) ;;;
      ret None
  | Some differences =>
      print ("    Different " +:+ Str.dq +:+ pathDestination +:+ Str.dq) ;;;
      (if verbose self then print (Str.cat differences) else ret tt) ;;;
      fun w => ask_loop self pathSource pathDestination differences (stdin w) w
  end.

(** The value returned is [None] for Python's [None], [Some n] for the
    integer [n]. *)
Definition _notices_business (self : DuplicatorJob)
  (_noticesEditor : NoticesEditor) (path : Path) : M (option nat) :=
  is_directory <- lift (fun fs => Ok (is_dir fs path)) ;;
  if (is_directory : bool) then ret None
  else
    checked <- lift (fun fs => check _noticesEditor fs path) ;;
    let '(noticeOK, linesFound) := checked in
    if (noticeOK : bool) then
      (if verbose self then
         match linesFound with
         | None =>
             print ("No notice insertion for suffix " +:+ Str.dq
                    +:+ suffix path +:+ Str.dq +:+ ", skipping " +:+ Str.dq
                    +:+ path +:+ Str.dq)
         | Some linesFound =>
             print ("Notice lines " +:+ Str.of_nat linesFound +:+ " in "
                    +:+ Str.dq +:+ path +:+ Str.dq)
         end
       else ret tt) ;;;
      ret (Some 0)
    else
      (if verbose self || negb (counting self)
       then print ("No copyright notices in file " +:+ Str.dq +:+ path +:+ Str.dq)
       else ret tt) ;;;
      if counting self then ret (Some 1)
      else
        inserted <- insert _noticesEditor path ;;
        let '(editedPath, differences) := inserted in
        overwritten <- _ask_overwrite self editedPath path (Some differences) ;;
        (if match overwritten with Some true => true | _ => false end then
           rechecked <- lift (fun fs => check _noticesEditor fs path) ;;
           if (fst rechecked : bool) then
             (if verbose self then print "Overwritten file OK." else ret tt)
           else
             raise (RuntimeError "Overwritten file doesn't have notices.")
         else ret tt) ;;;
        ret (Some (match overwritten with Some true => 1 | _ => 0 end)).

(** The loop of [git_ls_files] over the characters that the subprocess
    prints; [name] is the list of characters read since the last NUL. *)
Fixpoint git_ls_parse (top : string) (gitOutput : string) (name : string)
  : list Path :=
  match gitOutput with
  | EmptyString => []
  | String readChar gitOutput' =>
      if Ascii.eqb readChar "000"%char
      then joinpath top name :: git_ls_parse top gitOutput' ""
      else git_ls_parse top gitOutput' (name +:+ String readChar "")
  end.

Definition git_ls_files (self : DuplicatorJob) : M (list Path) :=
  fun w => (Ok (git_ls_parse (top self) (git_output w) ""), w).

(** [edited += value], [edited] an integer. *)
Definition iadd (edited : nat) (value : option nat) : M nat :=
  match value with
  | Some n => ret (edited + n)
  | None =>
      raise (TypeError
               "unsupported operand type(s) for +=: 'int' and 'NoneType'")
  end.

(** The two [for] loops of [__call__] when [insertNotices] is set. *)
Fixpoint notices_loop (self : DuplicatorJob) (_noticesEditor : NoticesEditor)
  (paths : list Path) (originalsChecked edited : nat) : M (nat * nat) :=
  match paths with
  | [] => ret (originalsChecked, edited)
  | path :: paths' =>
      let originalsChecked := originalsChecked + 1 in
      value <- _notices_business self _noticesEditor path ;;
      edited <- iadd edited value ;;
      notices_loop self _noticesEditor paths' originalsChecked edited
  end.

(** [__call__] in notice mode, that is with [self.insertNotices] set: the
    branches of [__call__] guarded by [insertNotices]. *)
Definition call_insertNotices (self : DuplicatorJob) : M unit :=
  _noticesEditor <- NoticesEditor_init (notices self) ;;
  counts <- notices_loop self _noticesEditor (originals self) 0 0 ;;
  let '(originalsChecked, edited) := counts in
  counts <- (if originalsChecked =? 0 then
               paths <- git_ls_files self ;;
               notices_loop self _noticesEditor paths originalsChecked edited
             else ret (originalsChecked, edited)) ;;
  let '(originalsChecked, edited) := counts in
  print ("Checked:" +:+ Str.of_nat originalsChecked +:+ ". Edited:"
         +:+ Str.of_nat edited +:+ ".").

(** ** Rules.patterns_matched_by, process_original, __call__ *)

(** The loop [for path in self._topPath.glob(pattern)] of
    [patterns_matched_by]; its [break] leaves this loop only. *)
Fixpoint matched_in (paths : list Path) (targetPath : Path) (matched : bool)
  : bool :=
  match paths with
  | [] => matched
  | path :: paths' =>
      if String.eqb path targetPath then true
      else matched_in paths' targetPath matched
  end.

(** [patterns_matched_by] over a rule table, run to its end: what it
    yields.  The [break] after the [yield] ends it at the first rule that
    matches. *)
Fixpoint patterns_matched_by_of (lists : list (string * list string))
  (targetPath : Path) : list (string * list string) :=
  match lists with
  | [] => []
  | (description, patterns) :: lists' =>
      let matched :=
        fold_left
          (fun matched pattern => matched_in (glob pattern) targetPath matched)
          patterns false in
      if matched then [(description, patterns)]
      else patterns_matched_by_of lists' targetPath
  end.

Definition patterns_matched_by (targetPath : Path)
  : list (string * list string) :=
  patterns_matched_by_of named_lists targetPath.

(** A [for] loop over the generator [diff_each(paths, pathLeft)], with the
    body of the loop run at every [yield]: the generator reads each file
    when the loop asks for the next tuple, after the body has run for the
    tuples before.  [paths] is the trace of [glob_each]. *)
Fixpoint for_diff_each_loop (paths : list (event Path))
  (left : option (Path * list string)) (body : diff_tuple -> M unit)
  : M unit :=
  match paths with
  | [] => ret tt
  | Raise e :: _ => raise e
  | Yield path :: paths' =>
      text <- lift (fun fs => open_read fs path) ;;
      let lines := Str.readlines text in
      match left with
      | None => for_diff_each_loop paths' (Some (path, lines)) body
      | Some (pathLeft, linesLeft) =>
          if String.eqb path pathLeft then for_diff_each_loop paths' left body
          else
            let differences := context_diff linesLeft lines pathLeft path in
            body (pathLeft, path,
                  if 0 <? List.length differences
                  then Some differences else None) ;;;
            for_diff_each_loop paths' left body
      end
  end.

Definition for_diff_each (paths : list (event Path)) (pathLeft : option Path)
  (body : diff_tuple -> M unit) : M unit :=
  match pathLeft with
  | None => for_diff_each_loop paths None body
  | Some pathLeft =>
      text <- lift (fun fs => open_read fs pathLeft) ;;
      for_diff_each_loop paths (Some (pathLeft, Str.readlines text)) body
  end.

(** The loop of [process_original] over what [patterns_matched_by]
    yields. *)
Fixpoint process_matches (self : DuplicatorJob) (original : string)
  (matches : list (string * list string)) (matchCount : nat) : M nat :=
  match matches with
  | [] => ret matchCount
  | (description, patterns) :: matches' =>
      let matchCount := matchCount + 1 in
      print (original +:+ Str.nl +:+ "Matches " +:+ description +:+ ":") ;;;
      for_diff_each (glob_each patterns) (Some original)
        (fun tuple =>
           let '(pathLeft, path, differences) := tuple in
           _ask_overwrite self pathLeft path differences ;;; ret tt) ;;;
      process_matches self original matches' matchCount
  end.

Definition process_original_of (lists : list (string * list string))
  (self : DuplicatorJob) (original : string) : M unit :=
  matchCount <- process_matches self original
                  (patterns_matched_by_of lists original) 0 ;;
  if matchCount <=? 0 then print (original +:+ Str.nl +:+ "No matches.")
  else ret tt.

Definition process_original (self : DuplicatorJob) (original : string)
  : M unit :=
  process_original_of named_lists self original.

(** [diff_all()] with its default [report], the standard output. *)
Fixpoint diff_all_stdout_loop (self : DuplicatorJob)
  (globs : list (string * list (event Path))) : M unit :=
  match globs with
  | [] => ret tt
  | (description, paths) :: globs' =>
      fun w =>
        match diff_all_body self (fs w) description paths (stdout w) with
        | Raised e => (Raised e, w)
        | Ok report =>
            diff_all_stdout_loop self globs'
              (mkWorld (fs w) (stdin w) report (temps w) (git_output w))
        end
  end.

Definition diff_all_stdout (self : DuplicatorJob) : M unit :=
  diff_all_stdout_loop self named_globs.

(** The first loop of [__call__] when [insertNotices] is not set. *)
Fixpoint originals_loop (self : DuplicatorJob) (originals : list string)
  (originalsChecked : nat) : M nat :=
  match originals with
  | [] => ret originalsChecked
  | original :: originals' =>
      let originalsChecked := originalsChecked + 1 in
      process_original self original ;;;
      originals_loop self originals' originalsChecked
  end.

(** [__call__] *)
Definition call (self : DuplicatorJob) : M unit :=
  if insertNotices self then call_insertNotices self
  else
    originalsChecked <- originals_loop self (originals self) 0 ;;
    if originalsChecked =? 0 then diff_all_stdout self else ret tt.

End Samers.

(** ** Values used by the examples *)

(** A stand-in for [difflib.context_diff] that tells equal sequences from
    different ones, which is all that the code looks at. *)
Definition simple_diff (a b : list string) (fromfile tofile : string)
  : list string :=
  if list_eq_dec string_dec a b then []
  else ["*** " +:+ fromfile +:+ Str.nl; "--- " +:+ tofile +:+ Str.nl].

(** A small tree: the notices file, an empty Python file, a Python file
    that is nothing but the notices, a directory, a one-line XML file. *)
Definition example_notices : string :=
  "Copyright 2020 VMware, Inc." +:+ Str.nl
  +:+ "SPDX-License-Identifier: BSD-2-Clause" +:+ Str.nl.

Definition example_noticed : string :=
  "# Copyright 2020 VMware, Inc." +:+ Str.nl
  +:+ "# SPDX-License-Identifier: BSD-2-Clause" +:+ Str.nl.

Definition example_editor : NoticesEditor :=
  NoticesEditor_of_text example_notices.

Definition example_styles : string := "<resources/>" +:+ Str.nl.

Definition example_fs : FS :=
  fun p =>
    if String.eqb p "copyrightnotices.txt" then Some (File example_notices)
    else if String.eqb p "app/__init__.py" then Some (File "")
    else if String.eqb p "app/noticed.py" then Some (File example_noticed)
    else if String.eqb p "app/res" then Some Dir
    else if String.eqb p "app/res/strings.xml"
         then Some (File "<?xml version='1.0'?><resources/>")
    else if String.eqb p "baseJava/styles.xml" then Some (File example_styles)
    else if String.eqb p "baseKotlin/styles.xml" then Some (File example_styles)
    else if String.eqb p "clientJava/styles.xml" then Some (File example_styles)
    else None.

Definition example_world : World := mkWorld example_fs [] "" 0 "".

Definition example_job (originals : list string) : DuplicatorJob :=
  mkJob false true "copyrightnotices.txt" originals "." false true.

(** The matches of the patterns in a tree where [styles.xml] is in two
    [base] projects and in one [client] project, and the script in one place. *)
Definition example_glob (pattern : string) : list Path :=
  if String.eqb pattern "base*/**/styles.xml"
  then ["baseJava/styles.xml"; "baseKotlin/styles.xml"]
  else if String.eqb pattern "client*/**/styles.xml"
  then ["clientJava/styles.xml"]
  else if String.eqb pattern "samers*" then ["samers.py"]
  else [].

Definition example_comment_java : string :=
  "// Copyright 2020 VMware, Inc." +:+ Str.nl
  +:+ "// SPDX-License-Identifier: BSD-2-Clause" +:+ Str.nl
  +:+ Str.nl
  +:+ "package a;" +:+ Str.nl.

Definition example_xml : string :=
  "<?xml version='1.0'?>" +:+ Str.nl +:+ "<resources/>" +:+ Str.nl.

(** A second small tree: a Java file with the notices, one without, a
    Python file with the first notice line only, a two-line XML file. *)
Definition half_noticed : string :=
  "# Copyright 2020 VMware, Inc." +:+ Str.nl +:+ "print()" +:+ Str.nl.

Definition extra_fs : FS :=
  fun p =>
    if String.eqb p "copyrightnotices.txt" then Some (File example_notices)
    else if String.eqb p "src/A.java" then Some (File example_comment_java)
    else if String.eqb p "src/B.java" then Some (File ("package b;" +:+ Str.nl))
    else if String.eqb p "src/half.py" then Some (File half_noticed)
    else if String.eqb p "res/values.xml" then Some (File example_xml)
    else None.

Definition extra_world (answers : list string) : World :=
  mkWorld extra_fs answers "" 0 "".

(** [--count] or not, [--yes] or not; never verbose. *)
Definition extra_job (counting yes : bool) (originals : list string)
  : DuplicatorJob :=
  mkJob counting true "copyrightnotices.txt" originals "." false yes.

(** A tree for the audit: three [styles.xml], one of them with another
    text, and the script. *)
Definition audit_text (p : Path) : string :=
  if String.eqb p "baseKotlin/styles.xml"
  then "<resources>" +:+ Str.nl +:+ "</resources>" +:+ Str.nl
  else if String.eqb p "samers.py" then "# samers" +:+ Str.nl
  else example_styles.

Definition audit_fs : FS :=
  fun p =>
    if in_list p [ "baseJava/styles.xml"; "baseKotlin/styles.xml";
                   "clientJava/styles.xml"; "samers.py" ]
    then Some (File (audit_text p))
    else None.

Definition audit_world : World := mkWorld audit_fs [] "" 0 "".

Definition audit_job (yes : bool) : DuplicatorJob :=
  mkJob false false "copyrightnotices.txt" [] "." false yes.

(** The notice lines are found in order in the lines of a file, each inside
    a line of its own. *)
Inductive OrderedIn : list string -> list string -> Prop :=
| OrderedIn_nil : forall file, OrderedIn [] file
| OrderedIn_here : forall notice noticesLines line file,
    Str.found line notice = true ->
    OrderedIn noticesLines file ->
    OrderedIn (notice :: noticesLines) (line :: file)
| OrderedIn_later : forall noticesLines line file,
    OrderedIn noticesLines file ->
    OrderedIn noticesLines (line :: file).

(** The first character, when there is one, is not white space. *)
Definition head_not_space (s : string) : Prop :=
  match s with
  | EmptyString => True
  | String c _ => Str.isspace c = false
  end.

(** The answers at the prompt of [_ask_overwrite], after [lower()]: the
    test of the first branch and the test of the second branch. *)
Definition accepts (response : string) : bool :=
  String.eqb response "" || Str.startswith response "y".

Definition rejects (response : string) : bool :=
  negb (accepts response) && Str.startswith response "n".



(** The path of the temporary file that [insert] makes in a world. *)
Definition temp_path (originalPath : Path) (w : World) : Path :=
  "/tmp/" +:+ (stem originalPath +:+ "_") +:+ Str.of_nat (temps w)
  +:+ suffix originalPath.

(** The text that [insert] writes for a file: by [xml_editor] when the
    suffix has a custom editor (there is no other), by [_leader_editor] when
    it has a comment leader; [None] when it has neither. *)
Definition edited_text (self : NoticesEditor) (originalPath : Path)
  (originalText : string) : option string :=
  match dict_get _custom_suffixes_map (_effective_suffix originalPath) with
  | Some _ => Some (xml_editor self (Str.readlines originalText) "")
  | None =>
      option_map
        (fun commentLead =>
           _leader_editor self commentLead (Str.readlines originalText) "")
        (find_leader _leader_suffixes_map (_effective_suffix originalPath))
  end.

(** [check] does not answer OK for the path. *)
Definition lacks_notices (self : NoticesEditor) (fs : FS) (path : Path) : bool :=
  match check self fs path with
  | Ok (true, _) => false
  | _ => true
  end.

(** The lines of the XML comment that holds the notices. *)
Definition comment_lines (self : NoticesEditor) : list string :=
  map (fun a => a +:+ Str.nl)
    (("<!--" :: map (fun line => "    " +:+ line) (_noticesLines self))
     ++ ["-->"]).

(** The lines that the plain editor writes for the notices. *)
Definition leader_lines (self : NoticesEditor) (commentLead : string)
  : list string :=
  map (fun line => (commentLead +:+ " " +:+ line) +:+ Str.nl)
    (_noticesLines self).

(** * Properties *)

(** ** Examples of the string and path functions *)

Example find_ex1 : Str.find "# Copyright 2020" "Copyright" = Some 2.
Proof. reflexivity. Qed.

Example strip_ex : Str.strip ("  a b " +:+ Str.nl) = "a b".
Proof. reflexivity. Qed.

Example of_nat_right_ex : Str.of_nat_right 2 3 = " 3" /\ Str.of_nat_right 2 12 = "12".
Proof. split; reflexivity. Qed.

Example suffix_ex :
  suffix "a/b/Main.java" = ".java" /\ suffix "x/.gitignore" = ""
  /\ stem "a/b/Main.java" = "Main" /\ suffix "a.b/c" = ""
  /\ suffix "a/b." = "" /\ name "a/b/c.d" = "c.d".
Proof. repeat split. Qed.
Example find_ex2 : Str.find "abc" "" = Some 0 /\ Str.find "" "" = Some 0 /\ Str.find "abc" "x" = None.
Proof. repeat split. Qed.
Example readlines_ex :
  Str.readlines ("a" +:+ Str.nl +:+ Str.nl +:+ "b") = ["a" +:+ Str.nl; Str.nl; "b"].
Proof. reflexivity. Qed.

(** ** Strings *)

Lemma append_nil_r (s : string) : s +:+ "" = s.
Proof. induction s as [|c s IH]; simpl; [reflexivity | now rewrite IH]. Qed.

Lemma append_assoc (a b c : string) : (a +:+ b) +:+ c = a +:+ b +:+ c.
Proof. induction a as [|x a IH]; simpl; [reflexivity | now rewrite IH]. Qed.

Lemma cat_app (xs ys : list string) :
  Str.cat (xs ++ ys) = Str.cat xs +:+ Str.cat ys.
Proof.
  induction xs as [|x xs IH]; simpl; [reflexivity|].
  now rewrite IH, append_assoc.
Qed.

Lemma no_nl_append (a b : string) :
  Str.no_nl (a +:+ b) <-> Str.no_nl a /\ Str.no_nl b.
Proof.
  induction a as [|c a IH]; simpl; [tauto|]. rewrite IH. tauto.
Qed.

(** The lines of a text, put together again, are the text. *)
Lemma cat_readlines (s : string) : Str.cat (Str.readlines s) = s.
Proof.
  induction s as [|c s IH]; simpl; [reflexivity|].
  destruct (Ascii.eqb c Str.LF).
  - simpl. now rewrite IH.
  - destruct (Str.readlines s) as [|l ls]; simpl in *.
    + now rewrite <- IH.
    + now rewrite <- IH.
Qed.

Lemma readlines_nonempty (s : string) :
  Forall (fun line => line <> "") (Str.readlines s).
Proof.
  induction s as [|c s IH]; simpl; [constructor|].
  destruct (Ascii.eqb c Str.LF).
  - constructor; [discriminate | assumption].
  - destruct (Str.readlines s) as [|l ls].
    + constructor; [discriminate | constructor].
    + inversion IH; subst. constructor; [discriminate | assumption].
Qed.

Lemma readlines_nil (s : string) : Str.readlines s = [] -> s = "".
Proof.
  destruct s as [|c s]; [reflexivity|]. simpl.
  destruct (Ascii.eqb c Str.LF); [discriminate|].
  destruct (Str.readlines s); discriminate.
Qed.

(** A line without a line end, then a line end, then more text. *)
Lemma readlines_line (a rest : string) :
  Str.no_nl a ->
  Str.readlines (a +:+ Str.nl +:+ rest) = (a +:+ Str.nl) :: Str.readlines rest.
Proof.
  change (Str.nl +:+ rest) with (String Str.LF rest).
  induction a as [|c a IH]; intros H.
  - reflexivity.
  - destruct H as [Hc Ha]. simpl.
    destruct (Ascii.eqb_spec c Str.LF) as [->|_]; [now elim Hc|].
    now rewrite (IH Ha).
Qed.

Lemma readlines_lines (body : list string) (rest : string) :
  Forall Str.no_nl body ->
  Str.readlines (Str.cat (map (fun a => a +:+ Str.nl) body) +:+ rest)
  = map (fun a => a +:+ Str.nl) body ++ Str.readlines rest.
Proof.
  induction 1 as [|a body Ha _ IH]; [reflexivity|].
  cbn [map Str.cat fold_right app].
  fold (Str.cat (map (fun a => a +:+ Str.nl) body)).
  rewrite !append_assoc, (readlines_line _ _ Ha).
  now rewrite IH.
Qed.

(** Every line read from a file has a line end at its end or nowhere. *)
Lemma readlines_shape (s : string) :
  Forall (fun line => exists a, Str.no_nl a /\ (line = a \/ line = a +:+ Str.nl))
    (Str.readlines s).
Proof.
  induction s as [|c s IH]; simpl; [constructor|].
  destruct (Ascii.eqb_spec c Str.LF) as [->|Hc].
  - constructor; [|assumption]. exists "". simpl. auto.
  - destruct (Str.readlines s) as [|l ls].
    + constructor; [|constructor]. exists (String c ""). simpl. auto.
    + inversion IH as [|? ? [a [Ha Hl]] Hls]; subst. constructor; [|assumption].
      exists (String c a). simpl. split; [auto|].
      destruct Hl as [->| ->]; auto.
Qed.

Lemma lstrip_no_nl (s : string) : Str.no_nl s -> Str.no_nl (Str.lstrip s).
Proof.
  induction s as [|c s IH]; simpl; [trivial|]. intros [Hc Hs].
  destruct (Str.isspace c); simpl; auto.
Qed.

Lemma rstrip_no_nl (s : string) : Str.no_nl s -> Str.no_nl (Str.rstrip s).
Proof.
  induction s as [|c s IH]; simpl; [trivial|]. intros [Hc Hs].
  specialize (IH Hs). destruct (Str.rstrip s) as [|d r].
  - destruct (Str.isspace c); simpl; auto.
  - simpl in *. tauto.
Qed.

Lemma rstrip_append_nl (a : string) : Str.rstrip (a +:+ Str.nl) = Str.rstrip a.
Proof.
  induction a as [|c a IH]; [reflexivity|].
  change (String c a +:+ Str.nl) with (String c (a +:+ Str.nl)).
  cbn [Str.rstrip]. now rewrite IH.
Qed.

Lemma strip_line_no_nl (a : string) :
  Str.no_nl a -> Str.no_nl (Str.strip (a +:+ Str.nl)).
Proof.
  unfold Str.strip. induction a as [|c a IH]; [simpl; trivial|].
  intros [Hc Ha].
  change (String c a +:+ Str.nl) with (String c (a +:+ Str.nl)).
  cbn [Str.lstrip]. destruct (Str.isspace c); [auto|].
  change (String c (a +:+ Str.nl)) with (String c a +:+ Str.nl).
  rewrite rstrip_append_nl. apply rstrip_no_nl. simpl. auto.
Qed.

Lemma strip_no_nl (a : string) : Str.no_nl a -> Str.no_nl (Str.strip a).
Proof. intros H. apply rstrip_no_nl, lstrip_no_nl, H. Qed.

(** The notice lines of an editor never hold a line end. *)
Lemma noticesLines_no_nl (noticesText : string) :
  Forall Str.no_nl (_noticesLines (NoticesEditor_of_text noticesText)).
Proof.
  unfold NoticesEditor_of_text. cbn [_noticesLines].
  apply Forall_map. eapply Forall_impl; [|apply readlines_shape].
  intros line [a [Ha [->| ->]]].
  - now apply strip_no_nl.
  - now apply strip_line_no_nl.
Qed.

Lemma startswith_append (p s : string) : Str.startswith (p +:+ s) p = true.
Proof.
  induction p as [|c p IH]; [reflexivity|]. simpl.
  now rewrite Ascii.eqb_refl, IH.
Qed.

Lemma found_startswith (s sub : string) :
  Str.startswith s sub = true -> Str.found s sub = true.
Proof.
  unfold Str.found. intros H. destruct s; simpl; now rewrite H.
Qed.

(** A line that contains the notice text is found by [find]. *)
Lemma found_inside (pre notice post : string) :
  Str.found (pre +:+ notice +:+ post) notice = true.
Proof.
  induction pre as [|c pre IH].
  - exact (found_startswith _ _ (startswith_append notice post)).
  - change (String c pre +:+ notice +:+ post)
      with (String c (pre +:+ notice +:+ post)).
    unfold Str.found in *. cbn [Str.find].
    destruct (Str.startswith (String c (pre +:+ notice +:+ post)) notice);
      [reflexivity|].
    destruct (Str.find (pre +:+ notice +:+ post) notice); simpl; congruence.
Qed.

(** ** check *)

Lemma OrderedIn_tail (notice : string) (noticesLines file : list string) :
  OrderedIn (notice :: noticesLines) file -> OrderedIn noticesLines file.
Proof.
  induction file as [|line file IH]; intros H; inversion H; subst.
  - now apply OrderedIn_later.
  - apply OrderedIn_later. auto.
Qed.

Lemma nth_error_skipn {A} (l : list A) (k : nat) (a : A) :
  nth_error l k = Some a -> skipn k l = a :: skipn (S k) l.
Proof.
  revert l. induction k as [|k IH]; intros [|x l]; simpl; try discriminate.
  - now intros [= ->].
  - intros H. now rewrite (IH _ H).
Qed.

(** [check] says OK as soon as the notice lines still to be found are found
    in order and one more line follows them: the test that all have been
    found is made on the next line of the file. *)
Lemma check_loop_found (noticesLines front back : list string) (linesFound : nat) :
  linesFound <= List.length noticesLines ->
  OrderedIn (skipn linesFound noticesLines) front ->
  back <> [] ->
  check_loop noticesLines (front ++ back) linesFound
  = (true, List.length noticesLines).
Proof.
  revert linesFound. induction front as [|line front IH]; intros k Hk Hin Hback.
  - destruct back as [|b back]; [congruence|]. simpl.
    inversion Hin as [? Hs| |]; subst.
    destruct (nth_error noticesLines k) as [notice|] eqn:E.
    + apply nth_error_skipn in E. congruence.
    + apply nth_error_None in E. f_equal. lia.
  - simpl. destruct (nth_error noticesLines k) as [notice|] eqn:E.
    + assert (Hlt : k < List.length noticesLines)
        by (apply nth_error_Some; congruence).
      rewrite (nth_error_skipn _ _ _ E) in Hin.
      destruct (Str.found line notice) eqn:F.
      * apply IH; [lia| |assumption].
        inversion Hin; subst; [assumption|].
        eapply OrderedIn_tail; eassumption.
      * apply IH; [lia| |assumption].
        rewrite (nth_error_skipn _ _ _ E).
        inversion Hin; subst; [congruence | assumption].
    + apply nth_error_None in E. f_equal. lia.
Qed.

(** The count that [check] returns never passes the number of notice lines,
    and an OK comes with exactly that number. *)
Lemma check_loop_count (noticesLines file : list string) (linesFound : nat) :
  linesFound <= List.length noticesLines ->
  snd (check_loop noticesLines file linesFound) <= List.length noticesLines
  /\ (fst (check_loop noticesLines file linesFound) = true ->
      snd (check_loop noticesLines file linesFound) = List.length noticesLines).
Proof.
  revert linesFound. induction file as [|line file IH]; intros k Hk; simpl.
  - split; [assumption | discriminate].
  - destruct (nth_error noticesLines k) as [notice|] eqn:E.
    + assert (Hlt : k < List.length noticesLines)
        by (apply nth_error_Some; congruence).
      destruct (Str.found line notice); apply IH; lia.
    + apply nth_error_None in E. simpl. split; [lia | intros _; lia].
Qed.

(** ** The editors *)

Lemma leader_header (commentLead : string) (noticesLines : list string)
  (editedFile : string) :
  fold_left
    (fun editedFile line =>
       write (write (write (write editedFile commentLead) " ") line) Str.nl)
    noticesLines editedFile
  = editedFile
    +:+ Str.cat (map (fun line => (commentLead +:+ " " +:+ line) +:+ Str.nl)
                   noticesLines).
Proof.
  revert editedFile. induction noticesLines as [|line rest IH]; intros f.
  - simpl. now rewrite append_nil_r.
  - cbn [fold_left map]. rewrite IH. unfold write.
    cbn [Str.cat fold_right]. now rewrite !append_assoc.
Qed.

Lemma leader_copy_rest (index : nat) (originalFile : list string)
  (editedFile : string) :
  leader_copy (S index) originalFile editedFile
  = editedFile +:+ Str.cat originalFile.
Proof.
  revert index editedFile.
  induction originalFile as [|line rest IH]; intros index f.
  - simpl. now rewrite append_nil_r.
  - cbn [leader_copy Nat.eqb andb]. rewrite IH. unfold write.
    cbn [Str.cat fold_right]. now rewrite append_assoc.
Qed.

Lemma leader_copy_first (line : string) (rest : list string)
  (editedFile : string) :
  leader_copy 0 (line :: rest) editedFile
  = editedFile
    +:+ (if String.eqb (Str.strip line) "" then "" else Str.nl)
    +:+ Str.cat (line :: rest).
Proof.
  cbn [leader_copy Nat.eqb andb]. rewrite leader_copy_rest. unfold write.
  destruct (String.eqb (Str.strip line) ""); cbn [negb Str.cat fold_right].
  - simpl String.append at 2. now rewrite append_assoc.
  - now rewrite !append_assoc.
Qed.

Lemma xml_copy_all (originalFile : list string) (editedFile : string) :
  Forall (fun line => line <> "") originalFile ->
  xml_copy (fst (readline originalFile)) (snd (readline originalFile)) editedFile
  = editedFile +:+ Str.cat originalFile.
Proof.
  revert editedFile.
  induction originalFile as [|line rest IH]; intros f H.
  - simpl. now rewrite append_nil_r.
  - inversion H as [|? ? Hline Hrest]; subst.
    specialize (IH (write f line) Hrest).
    destruct rest as [|next rest]; cbn [readline fst snd xml_copy];
      destruct (String.eqb_spec line "") as [E|_]; try contradiction.
    + unfold write. cbn [Str.cat fold_right]. now rewrite append_nil_r.
    + cbn [readline fst snd] in IH. rewrite IH. unfold write.
      cbn [Str.cat fold_right]. now rewrite append_assoc.
Qed.

Lemma find_leader_known (suffix commentLead : string) :
  find_leader _leader_suffixes_map suffix = Some commentLead ->
  commentLead = "#" \/ commentLead = "//".
Proof.
  unfold _leader_suffixes_map. cbn [find_leader].
  destruct (in_list suffix _); [intros [= <-]; auto|].
  destruct (in_list suffix _); [intros [= <-]; auto | discriminate].
Qed.

Lemma join_lines (body : list string) (last : string) :
  Str.join Str.nl (body ++ [last +:+ Str.nl])
  = Str.cat (map (fun a => a +:+ Str.nl) (body ++ [last])).
Proof.
  unfold Str.join. induction body as [|a body IH].
  - simpl. now rewrite append_nil_r.
  - cbn [app map Str.cat fold_right String.concat].
    destruct (body ++ [last +:+ Str.nl]) as [|b l] eqn:E.
    + destruct body; discriminate.
    + rewrite IH. now rewrite append_assoc.
Qed.

Lemma noticesXML_lines (noticesText : string) :
  _noticesXML (NoticesEditor_of_text noticesText)
  = Str.cat (comment_lines (NoticesEditor_of_text noticesText)).
Proof.
  unfold comment_lines, NoticesEditor_of_text.
  cbn [_noticesXML _noticesLines].
  now rewrite app_comm_cons, join_lines.
Qed.

Lemma comment_no_nl (noticesText : string) :
  Forall Str.no_nl
    (("<!--" :: map (fun line => "    " +:+ line)
                  (_noticesLines (NoticesEditor_of_text noticesText)))
     ++ ["-->"]).
Proof.
  apply Forall_app. split.
  - constructor; [simpl; repeat split; discriminate|].
    apply Forall_map. eapply Forall_impl; [|apply noticesLines_no_nl].
    intros a Ha. apply no_nl_append. split; [|assumption].
    simpl; repeat split; discriminate.
  - constructor; [|constructor]. simpl; repeat split; discriminate.
Qed.

Lemma leader_lines_map (self : NoticesEditor) (commentLead : string) :
  leader_lines self commentLead
  = map (fun a => a +:+ Str.nl)
      (map (fun line => commentLead +:+ " " +:+ line) (_noticesLines self)).
Proof. unfold leader_lines. now rewrite map_map. Qed.

Lemma leader_lines_no_nl (noticesText suffix commentLead : string) :
  find_leader _leader_suffixes_map suffix = Some commentLead ->
  Forall Str.no_nl
    (map (fun line => commentLead +:+ " " +:+ line)
       (_noticesLines (NoticesEditor_of_text noticesText))).
Proof.
  intros Hlead. apply Forall_map.
  eapply Forall_impl; [|apply noticesLines_no_nl].
  intros a Ha. apply no_nl_append. split.
  - destruct (find_leader_known _ _ Hlead) as [-> | ->];
      simpl; repeat split; discriminate.
  - apply no_nl_append. split; [simpl; repeat split; discriminate | exact Ha].
Qed.

(** What [_leader_editor] writes to an empty [editedFile]. *)
Lemma leader_editor_text (self : NoticesEditor)
  (commentLead originalText : string) :
  _leader_editor self commentLead (Str.readlines originalText) ""
  = Str.cat (leader_lines self commentLead)
    +:+ match Str.readlines originalText with
        | [] => ""
        | first :: _ =>
            (if String.eqb (Str.strip first) "" then "" else Str.nl)
            +:+ originalText
        end.
Proof.
  unfold _leader_editor. rewrite leader_header.
  fold (leader_lines self commentLead). change ("" +:+ ?x) with x.
  destruct (Str.readlines originalText) as [|first rest] eqn:E.
  - cbn [leader_copy]. now rewrite append_nil_r.
  - rewrite leader_copy_first, <- E, cat_readlines. reflexivity.
Qed.

(** C6. The plain editor writes every notice line after the comment leader
    and a space; then, when the first line of the original file is not blank,
    one empty line; then the original text as it is.  When the first line is
    blank, or the file is empty, nothing is put between the notices and the
    original text. *)
Theorem leader_editor_layout
  (noticesText suffix commentLead originalText : string) :
  find_leader _leader_suffixes_map suffix = Some commentLead ->
  let self := NoticesEditor_of_text noticesText in
  let edited := _leader_editor self commentLead (Str.readlines originalText) "" in
  (forall first rest,
      Str.readlines originalText = first :: rest -> Str.strip first = "" ->
      edited = Str.cat (leader_lines self commentLead) +:+ originalText
      /\ Str.readlines edited
         = leader_lines self commentLead ++ Str.readlines originalText)
  /\ (forall first rest,
      Str.readlines originalText = first :: rest -> Str.strip first <> "" ->
      edited = Str.cat (leader_lines self commentLead) +:+ Str.nl +:+ originalText
      /\ Str.readlines edited
         = leader_lines self commentLead ++ Str.nl :: Str.readlines originalText)
  /\ (originalText = "" -> edited = Str.cat (leader_lines self commentLead)).
Proof.
  intros Hlead self edited.
  pose proof (leader_lines_no_nl noticesText _ _ Hlead) as Hbody.
  pose proof (leader_lines_map self commentLead) as Hlines.
  pose proof (leader_editor_text self commentLead originalText) as Hed.
  fold edited in Hed. fold self in Hbody.
  split; [|split].
  - intros first rest E Hb. apply String.eqb_eq in Hb.
    rewrite Hed, E, Hb. change ("" +:+ originalText) with originalText.
    split; [reflexivity|].
    rewrite Hlines, (readlines_lines _ _ Hbody), E. reflexivity.
  - intros first rest E Hb. apply String.eqb_neq in Hb.
    rewrite Hed, E, Hb. split; [reflexivity|].
    rewrite Hlines, (readlines_lines _ _ Hbody).
    change (Str.readlines (Str.nl +:+ originalText))
      with (Str.nl :: Str.readlines originalText).
    now rewrite E.
  - intros ->. rewrite Hed. simpl. now rewrite append_nil_r.
Qed.

Lemma xml_editor_text (self : NoticesEditor) (originalFile : list string)
  (editedFile : string) :
  Forall (fun line => line <> "") originalFile ->
  xml_editor self originalFile editedFile
  = editedFile
    +:+ match originalFile with
        | [] => _noticesXML self
        | first :: rest =>
            if Str.startswith first "<?xml"
            then first +:+ _noticesXML self +:+ Str.cat rest
            else _noticesXML self +:+ first +:+ Str.cat rest
        end.
Proof.
  intros H. unfold xml_editor.
  destruct originalFile as [|first rest]; cbn [readline].
  - cbn [Str.startswith xml_copy String.eqb]. unfold write.
    now rewrite append_nil_r.
  - inversion H as [|? ? _ Hrest]; subst.
    pose proof (xml_copy_all rest) as Hcopy.
    destruct (readline rest) as [line originalFile'].
    cbn [fst snd] in Hcopy. rewrite (Hcopy _ Hrest). unfold write.
    destruct (Str.startswith first "<?xml"); now rewrite !append_assoc.
Qed.

(** C5, as amended.  When the first line of the XML file starts with
    [<?xml], the editor writes that line, then the notices comment, then the
    rest of the file as it is; when that first line ends with a line end, the
    comment is the second and following lines of the edited file.  When the
    first line does not start with [<?xml] (or the file is empty), the
    comment comes first and the whole original text follows it. *)
Theorem xml_editor_layout (noticesText originalText : string) :
  let self := NoticesEditor_of_text noticesText in
  let edited := xml_editor self (Str.readlines originalText) "" in
  (forall first rest,
      Str.readlines originalText = first :: rest ->
      Str.startswith first "<?xml" = true ->
      edited = first +:+ _noticesXML self +:+ Str.cat rest)
  /\ (forall decl restText,
      originalText = decl +:+ Str.nl +:+ restText ->
      Str.no_nl decl ->
      Str.startswith (decl +:+ Str.nl) "<?xml" = true ->
      edited = (decl +:+ Str.nl) +:+ _noticesXML self +:+ restText
      /\ Str.readlines edited
         = (decl +:+ Str.nl) :: comment_lines self ++ Str.readlines restText)
  /\ (Str.startswith (fst (readline (Str.readlines originalText))) "<?xml" = false ->
      edited = _noticesXML self +:+ originalText
      /\ Str.readlines edited = comment_lines self ++ Str.readlines originalText).
Proof.
  intros self edited.
  assert (Hed := xml_editor_text self (Str.readlines originalText) ""
                   (readlines_nonempty originalText)).
  fold edited in Hed. change ("" +:+ ?x) with x in Hed.
  split; [|split].
  - intros first rest E Hx. now rewrite Hed, E, Hx.
  - intros decl restText -> Hdecl Hx.
    rewrite (readlines_line _ _ Hdecl), Hx, cat_readlines in Hed.
    split; [exact Hed|]. rewrite Hed, append_assoc.
    rewrite (readlines_line _ _ Hdecl). f_equal.
    unfold self. rewrite noticesXML_lines.
    apply readlines_lines, comment_no_nl.
  - intros Hx.
    assert (Hed' : edited = _noticesXML self +:+ originalText).
    { rewrite Hed. destruct (Str.readlines originalText) as [|first rest] eqn:E.
      - apply readlines_nil in E. subst. now rewrite append_nil_r.
      - cbn [readline fst] in Hx. rewrite Hx.
        change (first +:+ Str.cat rest) with (Str.cat (first :: rest)).
        now rewrite <- E, cat_readlines. }
    split; [exact Hed'|]. rewrite Hed'. unfold self.
    rewrite noticesXML_lines. apply readlines_lines, comment_no_nl.
Qed.

(** C5, the claim as it stands, fails on an XML file that is one line with
    no line end: the comment is written on the same line as the declaration,
    so the second line of the edited file is the first notice line and not
    the start of the comment. *)
Lemma xml_declaration_second_line_counterexample :
  let self := NoticesEditor_of_text ("Copyright 2020" +:+ Str.nl) in
  let originalText := "<?xml version='1.0'?><a/>" in
  let edited := xml_editor self (Str.readlines originalText) "" in
  Str.startswith (fst (readline (Str.readlines originalText))) "<?xml" = true
  /\ Str.readlines edited
     = [ "<?xml version='1.0'?><a/><!--" +:+ Str.nl;
         "    Copyright 2020" +:+ Str.nl;
         "-->" +:+ Str.nl ]
  /\ nth_error (Str.readlines edited) 1 <> nth_error (comment_lines self) 0.
Proof.
  cbv zeta. split; [reflexivity|]. split; [reflexivity|].
  vm_compute. discriminate.
Qed.

(** C9. [check] on an empty file whose suffix is not exempt: not OK, and no
    notice line found. *)
Theorem check_empty_file (self : NoticesEditor) (fs : FS) (path : Path) :
  in_list (_effective_suffix path) _exempt_suffixes = false ->
  fs path = Some (File "") ->
  check self fs path = Ok (false, Some 0).
Proof.
  intros Hexempt Hfile. unfold check, open_read.
  now rewrite Hexempt, Hfile.
Qed.

Section Insert.

Variable context_diff : list string -> list string -> string -> string -> list string.

(** C7. [insert] on a file whose suffix has neither a comment leader nor a
    custom editor stops with an exception: [UnboundLocalError] for
    [commentLead] when the file can be opened, the error of [open] when it
    cannot.  It never returns an edited file. *)
Theorem insert_unknown_suffix (self : NoticesEditor) (originalPath : Path)
  (w : World) :
  find_leader _leader_suffixes_map (_effective_suffix originalPath) = None ->
  dict_get _custom_suffixes_map (_effective_suffix originalPath) = None ->
  (exists e, fst (insert context_diff self originalPath w) = Raised e)
  /\ (forall text,
        fs w originalPath = Some (File text) ->
        fst (insert context_diff self originalPath w)
        = Raised (UnboundLocalError "commentLead")).
Proof.
  intros Hlead Hcustom. unfold insert. rewrite Hlead, Hcustom.
  unfold bind, NamedTemporaryFile, lift, open_read, raise, write_file.
  cbn [fs fst].
  destruct (String.eqb originalPath _) eqn:E.
  - split; [eexists; reflexivity | reflexivity].
  - destruct (fs w originalPath) as [[|text]|] eqn:F.
    + split; [eexists; reflexivity | discriminate].
    + split; [eexists; reflexivity | reflexivity].
    + split; [eexists; reflexivity | discriminate].
Qed.

(** What [insert] leaves in the world: the edited text in a new temporary
    file, the original file as it was. *)
Lemma insert_writes (self : NoticesEditor) (originalPath : Path)
  (originalText : string) (w : World) :
  let suffix := _effective_suffix originalPath in
  let editedPath :=
    "/tmp/" +:+ (stem originalPath +:+ "_") +:+ Str.of_nat (temps w)
    +:+ PathLib.suffix originalPath in
  forall editedText,
    match dict_get _custom_suffixes_map suffix with
    | Some _ => Some (xml_editor self (Str.readlines originalText) "")
    | None =>
        option_map
          (fun commentLead =>
             _leader_editor self commentLead (Str.readlines originalText) "")
          (find_leader _leader_suffixes_map suffix)
    end = Some editedText ->
    editedPath <> originalPath ->
    fs w originalPath = Some (File originalText) ->
    fst (insert context_diff self originalPath w)
    = Ok (editedPath,
          context_diff (Str.readlines originalText) (Str.readlines editedText)
            originalPath "Edited")
    /\ fs (snd (insert context_diff self originalPath w)) editedPath
       = Some (File editedText)
    /\ fs (snd (insert context_diff self originalPath w)) originalPath
       = Some (File originalText).
Proof.
  intros suffix editedPath editedText Hedit Hfresh Hfile.
  assert (E1 : String.eqb originalPath editedPath = false)
    by (apply String.eqb_neq; congruence).
  assert (E2 : String.eqb editedPath editedPath = true)
    by apply String.eqb_refl.
  unfold insert. fold suffix. revert Hedit.
  unfold _custom_suffixes_map. cbn [dict_get].
  destruct (String.eqb ".xml" suffix).
  - intros [= <-].
    change (getattr_editor self "xml_editor") with (Some (xml_editor self)).
    repeat progress
      (cbv [bind NamedTemporaryFile lift open_read ret flush
              _editor_differences write_file];
       cbn [fs fst snd]; fold editedPath; rewrite ?E1, ?E2, ?Hfile).
    auto.
  - destruct (find_leader _leader_suffixes_map suffix) as [commentLead|];
      [|discriminate].
    intros [= <-].
    repeat progress
      (cbv [bind NamedTemporaryFile lift open_read ret flush
              _editor_differences write_file];
       cbn [fs fst snd]; fold editedPath; rewrite ?E1, ?E2, ?Hfile).
    auto.
Qed.

End Insert.

(** ** check on what the editors write *)

Lemma OrderedIn_map (f : string -> string) (noticesLines : list string) :
  (forall notice, Str.found (f notice) notice = true) ->
  OrderedIn noticesLines (map f noticesLines).
Proof.
  intros Hf. induction noticesLines as [|notice rest IH]; simpl; [constructor|].
  apply OrderedIn_here; [apply Hf | exact IH].
Qed.

Lemma found_comment_line (notice : string) :
  Str.found (("    " +:+ notice) +:+ Str.nl) notice = true.
Proof. rewrite append_assoc. apply found_inside. Qed.

Lemma found_leader_line (commentLead notice : string) :
  Str.found ((commentLead +:+ " " +:+ notice) +:+ Str.nl) notice = true.
Proof.
  rewrite <- (append_assoc commentLead " " notice), append_assoc.
  apply found_inside.
Qed.

Lemma OrderedIn_after (before noticesLines file : list string) :
  OrderedIn noticesLines file -> OrderedIn noticesLines (before ++ file).
Proof.
  intros H. induction before as [|line before IH]; simpl; [exact H|].
  now apply OrderedIn_later.
Qed.

(** An OK from [check] means that the notice lines are in the file, in
    order, each inside a line of its own. *)
Lemma check_loop_sound (noticesLines file : list string) (linesFound : nat) :
  fst (check_loop noticesLines file linesFound) = true ->
  OrderedIn (skipn linesFound noticesLines) file.
Proof.
  revert linesFound. induction file as [|line file IH]; intros k; simpl.
  - discriminate.
  - destruct (nth_error noticesLines k) as [notice|] eqn:E.
    + rewrite (nth_error_skipn _ _ _ E).
      destruct (Str.found line notice) eqn:F; intros H.
      * apply OrderedIn_here; auto.
      * apply OrderedIn_later. rewrite <- (nth_error_skipn _ _ _ E). auto.
    + intros _. apply nth_error_None in E.
      rewrite skipn_all2 by exact E. constructor.
Qed.

(** When the notice lines are not all in the file in order, [check] is not
    OK. *)
Lemma check_loop_missing (noticesLines file : list string) :
  ~ OrderedIn noticesLines file ->
  fst (check_loop noticesLines file 0) = false.
Proof.
  intros Hnot. destruct (fst (check_loop noticesLines file 0)) eqn:E;
    [|reflexivity].
  elim Hnot. exact (check_loop_sound noticesLines file 0 E).
Qed.

Lemma readlines_after_nl (before rest : string) :
  Str.readlines ((before +:+ Str.nl) +:+ rest)
  = Str.readlines (before +:+ Str.nl) ++ Str.readlines rest.
Proof.
  induction before as [|c before IH]; [reflexivity|].
  change ((String c before +:+ Str.nl) +:+ rest)
    with (String c ((before +:+ Str.nl) +:+ rest)).
  change (String c before +:+ Str.nl) with (String c (before +:+ Str.nl)).
  cbn [Str.readlines]. rewrite IH.
  destruct (Ascii.eqb c Str.LF); [reflexivity|].
  destruct (Str.readlines (before +:+ Str.nl)) as [|l ls] eqn:E;
    [|reflexivity].
  apply readlines_nil in E. destruct before; discriminate.
Qed.

(** Wherever the notices comment stands in a text, [check] finds the notice
    lines in it: the line that closes the comment comes after them. *)
Lemma check_loop_comment (noticesText before after : string) :
  let self := NoticesEditor_of_text noticesText in
  check_loop (_noticesLines self)
    (Str.readlines (before +:+ _noticesXML self +:+ after)) 0
  = (true, List.length (_noticesLines self)).
Proof.
  intros self. unfold self at 2. rewrite noticesXML_lines. fold self.
  unfold comment_lines. rewrite map_app, cat_app.
  cbn [map Str.cat fold_right]. rewrite map_map.
  rewrite !append_assoc, <- (append_assoc before "<!--").
  rewrite <- (append_assoc (before +:+ "<!--") Str.nl).
  rewrite readlines_after_nl.
  assert (Hbody : Forall Str.no_nl
            (map (fun line => "    " +:+ line) (_noticesLines self))).
  { apply Forall_map. eapply Forall_impl; [|apply noticesLines_no_nl].
    intros a Ha. apply no_nl_append. split; [|exact Ha].
    simpl; repeat split; discriminate. }
  rewrite <- (map_map (fun line => "    " +:+ line) (fun a => a +:+ Str.nl)).
  rewrite (readlines_lines _ _ Hbody), map_map, app_assoc.
  apply check_loop_found.
  - lia.
  - cbn [skipn]. apply OrderedIn_after, OrderedIn_map, found_comment_line.
  - change (("-->" +:+ Str.nl) +:+ "" +:+ after)
      with ("-->" +:+ Str.nl +:+ after).
    rewrite readlines_line by (simpl; repeat split; discriminate).
    discriminate.
Qed.

(** [check] on what [xml_editor] writes is always OK, with the number of
    notice lines. *)
Lemma xml_editor_check (noticesText originalText : string) :
  let self := NoticesEditor_of_text noticesText in
  check_loop (_noticesLines self)
    (Str.readlines (xml_editor self (Str.readlines originalText) "")) 0
  = (true, List.length (_noticesLines self)).
Proof.
  intros self.
  rewrite (xml_editor_text self _ "" (readlines_nonempty originalText)).
  change ("" +:+ ?x) with x.
  destruct (Str.readlines originalText) as [|first rest].
  - rewrite <- (append_nil_r (_noticesXML self)).
    exact (check_loop_comment noticesText "" "").
  - destruct (Str.startswith first "<?xml").
    + exact (check_loop_comment noticesText first (Str.cat rest)).
    + exact (check_loop_comment noticesText "" (first +:+ Str.cat rest)).
Qed.

(** [check] on what [_leader_editor] writes for a file that is not empty is
    OK, with the number of notice lines. *)
Lemma leader_editor_check (noticesText suffix commentLead originalText : string) :
  find_leader _leader_suffixes_map suffix = Some commentLead ->
  originalText <> "" ->
  let self := NoticesEditor_of_text noticesText in
  check_loop (_noticesLines self)
    (Str.readlines (_leader_editor self commentLead (Str.readlines originalText) ""))
    0
  = (true, List.length (_noticesLines self)).
Proof.
  intros Hlead Hne self.
  rewrite leader_editor_text, leader_lines_map.
  rewrite (readlines_lines _ _ (leader_lines_no_nl noticesText _ _ Hlead)).
  apply check_loop_found.
  - lia.
  - cbn [skipn]. rewrite map_map. apply OrderedIn_map, found_leader_line.
  - destruct (Str.readlines originalText) as [|first rest] eqn:E.
    + apply readlines_nil in E. contradiction.
    + intros Hnil. apply readlines_nil in Hnil.
      destruct (String.eqb (Str.strip first) ""); [|discriminate].
      now apply Hne.
Qed.

(** [check] on what [_leader_editor] writes for an empty file is not OK,
    although every notice line has been found: no line comes after them. *)
Lemma leader_editor_check_empty (noticesText suffix commentLead : string) :
  find_leader _leader_suffixes_map suffix = Some commentLead ->
  let self := NoticesEditor_of_text noticesText in
  check_loop (_noticesLines self)
    (Str.readlines (_leader_editor self commentLead (Str.readlines "") "")) 0
  = (false, List.length (_noticesLines self)).
Proof.
  intros Hlead self.
  rewrite leader_editor_text, leader_lines_map. cbn [Str.readlines].
  rewrite (readlines_lines _ _ (leader_lines_no_nl noticesText _ _ Hlead)).
  cbn [Str.readlines]. rewrite app_nil_r, map_map.
  assert (G : forall done todo,
             check_loop (done ++ todo)
               (map (fun x => (commentLead +:+ " " +:+ x) +:+ Str.nl) todo)
               (List.length done)
             = (false, List.length (done ++ todo))).
  { intros done todo. revert done.
    induction todo as [|notice todo IH]; intros done.
    - now rewrite app_nil_r.
    - cbn [map check_loop].
      rewrite nth_error_app2, Nat.sub_diag by lia. cbn [nth_error].
      rewrite found_leader_line.
      specialize (IH (done ++ [notice])).
      rewrite <- app_assoc, length_app in IH. cbn [List.length app] in IH.
      now rewrite Nat.add_1_r in IH. }
  exact (G [] (_noticesLines self)).
Qed.

(** C2, at a file that is the two notice lines behind a comment leader and
    nothing else: every notice line is in the file, in order, and [check]
    answers not OK, with the count 2.  The last notice line is on the last
    line of the file, and [check] only sees that all have been found when it
    reads one more line. *)
Theorem check_notices_at_end_of_file :
  OrderedIn (_noticesLines example_editor) (Str.readlines example_noticed)
  /\ List.length (_noticesLines example_editor) = 2
  /\ check example_editor example_fs "app/noticed.py" = Ok (false, Some 2).
Proof.
  split; [|split; reflexivity].
  apply OrderedIn_here; [reflexivity|].
  apply OrderedIn_here; [reflexivity|]. constructor.
Qed.

(** C1, at an empty Python file: [insert] writes the two notice lines, and
    [check] on the edited file answers not OK.  In the job the file is
    overwritten and the check that follows raises [RuntimeError]. *)
Theorem insert_empty_file_then_check :
  let run :=
    insert simple_diff example_editor "app/__init__.py" example_world in
  (exists differences, fst run = Ok ("/tmp/__init___0.py", differences))
  /\ fs (snd run) "/tmp/__init___0.py" = Some (File example_noticed)
  /\ check example_editor (fs (snd run)) "/tmp/__init___0.py"
     = Ok (false, Some 2)
  /\ fst (call_insertNotices simple_diff (example_job ["app/__init__.py"])
            example_world)
     = Raised (RuntimeError "Overwritten file doesn't have notices.").
Proof.
  cbv zeta. split; [eexists; vm_compute; reflexivity|].
  split; [vm_compute; reflexivity|].
  split; vm_compute; reflexivity.
Qed.

(** ** Notice mode *)

Section NoticeMode.

Variable context_diff : list string -> list string -> string -> string -> list string.

(** For a directory [_notices_business] returns [None], and nothing has been
    checked, edited or printed. *)
Lemma notices_business_directory (self : DuplicatorJob)
  (noticesEditor : NoticesEditor) (path : Path) (w : World) :
  is_dir (fs w) path = true ->
  _notices_business context_diff self noticesEditor path w = (Ok None, w).
Proof.
  intros H. unfold _notices_business, bind, lift. now rewrite H.
Qed.

(** The loop of [__call__] stops with [TypeError] at the first directory
    when it comes first: the [None] cannot be added to [edited]. *)
Lemma notices_loop_directory (self : DuplicatorJob)
  (noticesEditor : NoticesEditor) (path : Path) (paths : list Path)
  (originalsChecked edited : nat) (w : World) :
  is_dir (fs w) path = true ->
  notices_loop context_diff self noticesEditor (path :: paths)
    originalsChecked edited w
  = (Raised (TypeError
               "unsupported operand type(s) for +=: 'int' and 'NoneType'"), w).
Proof.
  intros H. cbn [notices_loop]. unfold bind at 1.
  rewrite (notices_business_directory _ _ _ _ H). reflexivity.
Qed.

(** A run in notice mode whose first candidate is a directory stops there
    with [TypeError], whatever the flags and the other candidates: nothing is
    printed, and nothing is checked or edited. *)
Lemma call_insertNotices_directory_first (self : DuplicatorJob)
  (path : string) (paths : list string) (noticesText : string) (w : World) :
  originals self = path :: paths ->
  fs w (notices self) = Some (File noticesText) ->
  is_dir (fs w) path = true ->
  call_insertNotices context_diff self w
  = (Raised (TypeError
               "unsupported operand type(s) for +=: 'int' and 'NoneType'"), w).
Proof.
  intros Horiginals Hnotices Hdir. unfold call_insertNotices.
  rewrite Horiginals. unfold bind at 1.
  unfold NoticesEditor_init, bind, lift, open_read, ret. rewrite Hnotices.
  now rewrite (notices_loop_directory _ _ _ _ _ _ _ Hdir).
Qed.

End NoticeMode.

(** C8, at a run whose first candidate is a directory: the run stops with
    [TypeError], the file after the directory is not looked at, and no
    summary is printed. *)
Theorem notice_mode_directory :
  call_insertNotices simple_diff
    (example_job ["app/res"; "app/__init__.py"]) example_world
  = (Raised (TypeError
               "unsupported operand type(s) for +=: 'int' and 'NoneType'"),
     example_world).
Proof. reflexivity. Qed.

(** ** glob_each *)

Lemma yielded_app {A} (values : list A) (t : list (event A)) :
  yielded (map Yield values ++ t) = values ++ yielded t.
Proof. induction values as [|a values IH]; simpl; [reflexivity | now rewrite IH]. Qed.

Lemma raised_app {A} (values : list A) (t : list (event A)) :
  raised (map Yield values ++ t) = raised t.
Proof. induction values as [|a values IH]; simpl; [reflexivity | exact IH]. Qed.

Section Audit.

Variable context_diff : list string -> list string -> string -> string -> list string.
Variable glob : string -> list Path.

Lemma glob_each_many (pattern : string) (patterns : list string) :
  matches_many glob pattern ->
  glob_each glob (pattern :: patterns)
  = map Yield (glob pattern) ++ glob_each glob patterns.
Proof.
  unfold matches_many. intros H. cbn [glob_each].
  destruct (List.length (glob pattern)) as [|[|n]]; [lia | lia | reflexivity].
Qed.

(** The patterns that match two files or more are passed through. *)
Lemma glob_each_app (pre patterns : list string) :
  Forall (matches_many glob) pre ->
  glob_each glob (pre ++ patterns)
  = map Yield (flat_map glob pre) ++ glob_each glob patterns.
Proof.
  induction 1 as [|pattern pre H _ IH]; [reflexivity|].
  cbn [app flat_map]. rewrite (glob_each_many _ _ H), IH.
  now rewrite map_app, app_assoc.
Qed.

Lemma glob_each_all (patterns : list string) :
  Forall (matches_many glob) patterns ->
  glob_each glob patterns = map Yield (flat_map glob patterns).
Proof.
  intros H. rewrite <- (app_nil_r patterns) at 1.
  rewrite (glob_each_app _ _ H). apply app_nil_r.
Qed.

(** C3. A pattern that [glob_each] comes to, the patterns before it having
    two matches or more each: with no match, [ValueError] with the pattern
    in its message; with one match, [ValueError] with the pattern and that
    match in its message; with two or more, as for the patterns after it, no
    exception, and every match of every pattern is yielded. *)
Theorem glob_each_errors (pre : list string) (pattern : string)
  (post : list string) :
  Forall (matches_many glob) pre ->
  (glob pattern = [] ->
   raised (glob_each glob (pre ++ pattern :: post))
   = Some (ValueError
             ("Failed, no match for " +:+ Str.dq +:+ pattern +:+ Str.dq +:+ ".")))
  /\ (forall sole,
         glob pattern = [sole] ->
         raised (glob_each glob (pre ++ pattern :: post))
         = Some (ValueError
                   ("Failed, only one match for " +:+ Str.dq +:+ pattern
                    +:+ Str.dq +:+ ": " +:+ sole +:+ ".")))
  /\ (matches_many glob pattern -> Forall (matches_many glob) post ->
      raised (glob_each glob (pre ++ pattern :: post)) = None
      /\ yielded (glob_each glob (pre ++ pattern :: post))
         = flat_map glob (pre ++ pattern :: post)).
Proof.
  intros Hpre. split; [|split].
  - intros E. rewrite (glob_each_app _ _ Hpre), raised_app.
    cbn [glob_each]. now rewrite E.
  - intros sole E. rewrite (glob_each_app _ _ Hpre), raised_app.
    cbn [glob_each]. now rewrite E.
  - intros Hp Hpost.
    assert (Hall : Forall (matches_many glob) (pre ++ pattern :: post)).
    { apply Forall_app. split; [assumption | now constructor]. }
    rewrite (glob_each_all _ Hall).
    rewrite <- (app_nil_r (map Yield _)). rewrite raised_app, yielded_app.
    split; [reflexivity | apply app_nil_r].
Qed.

(** C10. The matches of a pattern are yielded before [glob_each] decides
    whether to raise for that pattern: the trace holds every match of the
    pattern, and only then the decision.  With one match, the trace is that
    match and then the [ValueError], so the consumer has received the match
    when the exception reaches it. *)
Theorem glob_each_yields_before_error (pre : list string) (pattern : string)
  (post : list string) :
  Forall (matches_many glob) pre ->
  (exists decision,
      glob_each glob (pre ++ pattern :: post)
      = map Yield (flat_map glob pre) ++ map Yield (glob pattern) ++ decision)
  /\ (forall sole,
         glob pattern = [sole] ->
         glob_each glob (pre ++ pattern :: post)
         = map Yield (flat_map glob pre)
           ++ [ Yield sole;
                Raise (ValueError
                         ("Failed, only one match for " +:+ Str.dq +:+ pattern
                          +:+ Str.dq +:+ ": " +:+ sole +:+ ".")) ]
         /\ yielded (glob_each glob (pre ++ pattern :: post))
            = flat_map glob pre ++ [sole]).
Proof.
  intros Hpre. rewrite (glob_each_app _ _ Hpre). split.
  - cbn [glob_each]. eexists. reflexivity.
  - intros sole E. cbn [glob_each]. rewrite E. cbn [map List.length Nat.eqb nth app].
    split; [reflexivity|]. now rewrite yielded_app.
Qed.

(** ** diff_each and diff_all *)

Lemma diff_each_loop_same (fs : FS) (first : Path) (text : string)
  (others : list Path) :
  (forall a f t, context_diff a a f t = []) ->
  (forall p, In p others -> fs p = Some (File text)) ->
  diff_each_loop context_diff fs (map Yield others)
    (Some (first, Str.readlines text))
  = map (fun p => Yield (first, p, None))
      (filter (fun p => negb (String.eqb p first)) others).
Proof.
  intros Hsame. induction others as [|p others IH]; intros Hfs; [reflexivity|].
  cbn [map diff_each_loop filter]. unfold open_read.
  rewrite (Hfs p (or_introl eq_refl)).
  assert (IH' := IH (fun q Hq => Hfs q (or_intror Hq))).
  destruct (String.eqb p first); cbn [negb].
  - exact IH'.
  - rewrite Hsame. cbn [List.length Nat.ltb Nat.leb map]. now rewrite IH'.
Qed.

Lemma diff_all_collect_same (first : Path) (candidates found : list Path) :
  diff_all_collect (map (fun p => Yield (first, p, None)) candidates)
    (Some found) [] []
  = Ok (Some (found ++ candidates), [], []).
Proof.
  revert found. induction candidates as [|p candidates IH]; intros found.
  - simpl. now rewrite app_nil_r.
  - cbn [map diff_all_collect]. rewrite IH. now rewrite <- app_assoc.
Qed.

(** C4, as amended.  Files that all hold the same text: [diff_each] yields
    one tuple for each path after the first that is not the first path, in
    the order of the paths, each with no differences.  When there is such a
    path and the paths come to [diff_all] without an exception, as they do
    from a group whose patterns have two matches or more each, [diff_all]
    writes the OK line for the description, with one more than the number of
    tuples as the number of matches. *)
Theorem diff_identical_files (self : DuplicatorJob) (fs : FS)
  (description report : string) (first : Path) (others : list Path)
  (text : string) :
  (forall a f t, context_diff a a f t = []) ->
  (forall p, In p (first :: others) -> fs p = Some (File text)) ->
  let candidates := filter (fun p => negb (String.eqb p first)) others in
  let ok_line :=
    "OK " +:+ Str.of_nat_right 2 (S (List.length candidates))
    +:+ " matches for " +:+ description +:+ "." +:+ Str.nl in
  diff_each context_diff fs (map Yield (first :: others)) None
  = map (fun p => Yield (first, p, None)) candidates
  /\ (candidates <> [] ->
      diff_all_body context_diff self fs description
        (map Yield (first :: others)) report
      = Ok (report +:+ ok_line))
  /\ (forall patterns,
         Forall (matches_many glob) patterns ->
         flat_map glob patterns = first :: others ->
         candidates <> [] ->
         diff_all_body context_diff self fs description
           (glob_each glob patterns) report
         = Ok (report +:+ ok_line)).
Proof.
  intros Hsame Hfs candidates ok_line.
  assert (Heach : diff_each context_diff fs (map Yield (first :: others)) None
                  = map (fun p => Yield (first, p, None)) candidates).
  { unfold diff_each. cbn [map diff_each_loop]. unfold open_read.
    rewrite (Hfs first (or_introl eq_refl)).
    apply diff_each_loop_same; [exact Hsame|].
    intros p Hp. apply Hfs. now right. }
  assert (Hbody : candidates <> [] ->
            diff_all_body context_diff self fs description
              (map Yield (first :: others)) report
            = Ok (report +:+ ok_line)).
  { intros Hsome. unfold diff_all_body. rewrite Heach. unfold ok_line.
    destruct candidates as [|p candidates']; [congruence|].
    cbn [map diff_all_collect]. rewrite diff_all_collect_same.
    cbn [app List.length Nat.leb Nat.ltb]. reflexivity. }
  split; [exact Heach|]. split; [exact Hbody|].
  intros patterns Hmany Hglob Hsome.
  rewrite (glob_each_all _ Hmany), Hglob. exact (Hbody Hsome).
Qed.

End Audit.

(** C4, the claim as it stands, fails on a group of three files with the
    same text where the second pattern of the group has one match only:
    [diff_each] yields its two tuples with no differences and then passes on
    the [ValueError] of [glob_each], and [diff_all] writes that failure
    instead of OK.  It also fails on a sequence that is the same path twice:
    [diff_each] yields nothing, and [diff_all] writes that there is no
    match. *)
Lemma diff_all_identical_not_OK_counterexample :
  let paths :=
    glob_each example_glob ["base*/**/styles.xml"; "client*/**/styles.xml"] in
  let twice := map Yield ["baseJava/styles.xml"; "baseJava/styles.xml"] in
  yielded paths
  = ["baseJava/styles.xml"; "baseKotlin/styles.xml"; "clientJava/styles.xml"]
  /\ map example_fs (yielded paths)
     = [Some (File example_styles); Some (File example_styles);
        Some (File example_styles)]
  /\ yielded (diff_each simple_diff example_fs paths None)
     = [ ("baseJava/styles.xml", "baseKotlin/styles.xml", None);
         ("baseJava/styles.xml", "clientJava/styles.xml", None) ]
  /\ diff_all_body simple_diff (example_job []) example_fs
       "unbranded styles.xml files" paths ""
     = Ok ("Failed, only one match for " +:+ Str.dq +:+ "client*/**/styles.xml"
           +:+ Str.dq +:+ ": clientJava/styles.xml." +:+ Str.nl)
  /\ diff_each simple_diff example_fs twice None = []
  /\ diff_all_body simple_diff (example_job []) example_fs
       "unbranded styles.xml files" twice ""
     = Ok ("Failed, no match for unbranded styles.xml files." +:+ Str.nl).
Proof. repeat split. Qed.

(** ** The theorems at the example tree *)

Lemma simple_diff_same (a : list string) (f t : string) :
  simple_diff a a f t = [].
Proof.
  unfold simple_diff. destruct (list_eq_dec string_dec a a); [reflexivity|].
  congruence.
Defined.

Lemma check_empty_file_witness :
  check example_editor example_fs "app/__init__.py" = Ok (false, Some 0).
Proof.
  apply (check_empty_file example_editor example_fs "app/__init__.py");
    reflexivity.
Defined.

Lemma insert_unknown_suffix_witness :
  fst (insert simple_diff example_editor "app/icon.png" example_world)
  = Raised (OSError "app/icon.png")
  /\ fst (insert simple_diff example_editor "copyrightnotices.txt" example_world)
     = Raised (UnboundLocalError "commentLead").
Proof.
  split.
  - destruct (insert_unknown_suffix simple_diff example_editor "app/icon.png"
                example_world eq_refl eq_refl) as [[e He] _].
    rewrite He. vm_compute in He. exact (eq_sym He).
  - apply (proj2 (insert_unknown_suffix simple_diff example_editor
                    "copyrightnotices.txt" example_world eq_refl eq_refl)
             example_notices).
    reflexivity.
Defined.

Lemma leader_editor_layout_witness :
  _leader_editor example_editor "//" (Str.readlines ("package a;" +:+ Str.nl)) ""
  = example_comment_java
  /\ _leader_editor example_editor "//"
       (Str.readlines (Str.nl +:+ "package a;" +:+ Str.nl)) ""
     = Str.cat (leader_lines example_editor "//")
       +:+ Str.nl +:+ "package a;" +:+ Str.nl.
Proof.
  split.
  - apply (proj1 (proj2 (leader_editor_layout example_notices ".java" "//"
                           ("package a;" +:+ Str.nl) eq_refl))
             ("package a;" +:+ Str.nl) []).
    + reflexivity.
    + discriminate.
  - apply (proj1 (leader_editor_layout example_notices ".java" "//"
                    (Str.nl +:+ "package a;" +:+ Str.nl) eq_refl)
             Str.nl ["package a;" +:+ Str.nl]); reflexivity.
Defined.

Lemma xml_editor_layout_witness :
  Str.readlines (xml_editor example_editor (Str.readlines example_xml) "")
  = ("<?xml version='1.0'?>" +:+ Str.nl)
    :: comment_lines example_editor ++ ["<resources/>" +:+ Str.nl]
  /\ xml_editor example_editor (Str.readlines ("<resources/>" +:+ Str.nl)) ""
     = _noticesXML example_editor +:+ "<resources/>" +:+ Str.nl.
Proof.
  split.
  - apply (proj1 (proj2 (xml_editor_layout example_notices example_xml))
             "<?xml version='1.0'?>" ("<resources/>" +:+ Str.nl)).
    + reflexivity.
    + simpl; repeat split; discriminate.
    + reflexivity.
  - apply (proj2 (proj2 (xml_editor_layout example_notices
                           ("<resources/>" +:+ Str.nl)))).
    reflexivity.
Defined.

Lemma example_glob_styles : matches_many example_glob "base*/**/styles.xml".
Proof. unfold matches_many. simpl. lia. Defined.

Lemma glob_each_errors_witness :
  raised (glob_each example_glob ["base*/**/styles.xml"; "nuffin"; "samers*"])
  = Some (ValueError ("Failed, no match for " +:+ Str.dq +:+ "nuffin" +:+ Str.dq +:+ "."))
  /\ raised (glob_each example_glob ["base*/**/styles.xml"; "samers*"; "nuffin"])
     = Some (ValueError
               ("Failed, only one match for " +:+ Str.dq +:+ "samers*" +:+ Str.dq
                +:+ ": samers.py."))
  /\ yielded (glob_each example_glob ["base*/**/styles.xml"; "base*/**/styles.xml"])
     = [ "baseJava/styles.xml"; "baseKotlin/styles.xml";
         "baseJava/styles.xml"; "baseKotlin/styles.xml" ].
Proof.
  assert (H : Forall (matches_many example_glob) ["base*/**/styles.xml"])
    by (constructor; [exact example_glob_styles | constructor]).
  split; [|split].
  - apply (proj1 (glob_each_errors example_glob ["base*/**/styles.xml"] "nuffin"
                    ["samers*"] H)).
    reflexivity.
  - apply (proj1 (proj2 (glob_each_errors example_glob ["base*/**/styles.xml"]
                           "samers*" ["nuffin"] H))
             "samers.py").
    reflexivity.
  - apply (proj2 (proj2 (glob_each_errors example_glob ["base*/**/styles.xml"]
                           "base*/**/styles.xml" [] H))).
    + exact example_glob_styles.
    + constructor.
Defined.

Lemma glob_each_yields_before_error_witness :
  glob_each example_glob ["base*/**/styles.xml"; "samers*"; "nuffin"]
  = [ Yield "baseJava/styles.xml"; Yield "baseKotlin/styles.xml";
      Yield "samers.py";
      Raise (ValueError
               ("Failed, only one match for " +:+ Str.dq +:+ "samers*" +:+ Str.dq
                +:+ ": samers.py.")) ].
Proof.
  apply (proj2 (glob_each_yields_before_error example_glob
                  ["base*/**/styles.xml"] "samers*" ["nuffin"]
                  (Forall_cons _ example_glob_styles (Forall_nil _)))
           "samers.py").
  reflexivity.
Defined.

Lemma diff_identical_files_witness :
  diff_each simple_diff example_fs
    (map Yield ["baseJava/styles.xml"; "baseKotlin/styles.xml"]) None
  = [Yield ("baseJava/styles.xml", "baseKotlin/styles.xml", None)]
  /\ diff_all_body simple_diff (example_job []) example_fs
       "unbranded styles.xml files"
       (glob_each example_glob ["base*/**/styles.xml"]) ""
     = Ok ("OK  2 matches for unbranded styles.xml files." +:+ Str.nl).
Proof.
  destruct (diff_identical_files simple_diff example_glob (example_job [])
              example_fs "unbranded styles.xml files" ""
              "baseJava/styles.xml" ["baseKotlin/styles.xml"]
              example_styles simple_diff_same) as [H1 [_ H3]].
  - intros p [<- | [<- | []]]; reflexivity.
  - split; [exact H1|].
    apply (H3 ["base*/**/styles.xml"]).
    + constructor; [exact example_glob_styles | constructor].
    + reflexivity.
    + discriminate.
Defined.

(** * Further properties of the code *)

(** ** check: what its answers mean *)

Lemma check_loop_ge (noticesLines file : list string) (linesFound : nat) :
  linesFound <= snd (check_loop noticesLines file linesFound).
Proof.
  revert linesFound. induction file as [|line file IH]; intros j; simpl.
  - lia.
  - destruct (nth_error noticesLines j); [|simpl; lia].
    destruct (Str.found line _); [specialize (IH (S j)); lia | apply IH].
Qed.

Lemma skipn_firstn_cons {A} (l : list A) (j k : nat) (a : A) :
  nth_error l j = Some a -> j < k ->
  skipn j (firstn k l) = a :: skipn (S j) (firstn k l).
Proof.
  intros E Hjk. apply nth_error_skipn. rewrite nth_error_firstn.
  destruct (Nat.ltb_spec j k); [exact E | lia].
Qed.

Lemma skipn_firstn_nil {A} (l : list A) (j : nat) : skipn j (firstn j l) = [].
Proof.
  apply skipn_all2. rewrite length_firstn. lia.
Qed.

(** The notice lines from [linesFound] up to the count that [check] returns
    are in the file, in order. *)
Lemma check_loop_prefix (noticesLines file : list string) (linesFound : nat) :
  OrderedIn
    (skipn linesFound
       (firstn (snd (check_loop noticesLines file linesFound)) noticesLines))
    file.
Proof.
  revert linesFound. induction file as [|line file IH]; intros j;
    cbn [check_loop].
  - cbn [snd]. rewrite skipn_firstn_nil. constructor.
  - destruct (nth_error noticesLines j) as [notice|] eqn:E.
    + destruct (Str.found line notice) eqn:F.
      * pose proof (check_loop_ge noticesLines file (S j)) as Hge.
        rewrite (skipn_firstn_cons _ _ _ _ E) by lia.
        apply OrderedIn_here; [exact F | apply IH].
      * apply OrderedIn_later, IH.
    + cbn [snd]. rewrite skipn_firstn_nil. constructor.
Qed.

(** When [check] is not OK, one notice line more than its count is not in
    the file in order: the count is the longest start of the notices that
    the file holds. *)
Lemma check_loop_maximal (noticesLines file : list string) (linesFound : nat) :
  fst (check_loop noticesLines file linesFound) = false ->
  snd (check_loop noticesLines file linesFound) < List.length noticesLines ->
  ~ OrderedIn
      (skipn linesFound
         (firstn (S (snd (check_loop noticesLines file linesFound)))
            noticesLines))
      file.
Proof.
  revert linesFound. induction file as [|line file IH]; intros j;
    cbn [check_loop].
  - cbn [fst snd]. intros _ Hlt H.
    destruct (nth_error noticesLines j) as [notice|] eqn:E.
    + rewrite (skipn_firstn_cons _ _ _ _ E) in H by lia. inversion H.
    + apply nth_error_None in E. lia.
  - destruct (nth_error noticesLines j) as [notice|] eqn:E;
      [|cbn [fst]; discriminate].
    destruct (Str.found line notice) eqn:F; intros Hfalse Hlt H.
    + pose proof (check_loop_ge noticesLines file (S j)) as Hge.
      rewrite (skipn_firstn_cons _ _ _ _ E) in H by lia.
      apply (IH (S j) Hfalse Hlt).
      inversion H; subst; [assumption|].
      eapply OrderedIn_tail; eassumption.
    + pose proof (check_loop_ge noticesLines file j) as Hge.
      apply (IH j Hfalse Hlt).
      rewrite (skipn_firstn_cons _ _ _ _ E) in H |- * by lia.
      inversion H; subst; [congruence | assumption].
Qed.

Lemma check_inv (self : NoticesEditor) (fs : FS) (path : Path)
  (noticeOK : bool) (linesFound : nat) :
  check self fs path = Ok (noticeOK, Some linesFound) ->
  exists text,
    fs path = Some (File text)
    /\ check_loop (_noticesLines self) (Str.readlines text) 0
       = (noticeOK, linesFound).
Proof.
  unfold check, open_read.
  destruct (in_list _ _); [discriminate|].
  destruct (fs path) as [[|text]|]; try discriminate.
  destruct (check_loop _ _ 0) as [ok n] eqn:E.
  intros [= <- <-]. now exists text.
Qed.

(** X1. An OK from [check] that comes with a count means that the file was
    read, that every notice line is inside a line of the file, in the order
    of the notices, and that the count is the number of notice lines. *)
Theorem check_ok_means_notices_present (self : NoticesEditor) (fs : FS)
  (path : Path) (linesFound : nat) :
  check self fs path = Ok (true, Some linesFound) ->
  exists text,
    fs path = Some (File text)
    /\ OrderedIn (_noticesLines self) (Str.readlines text)
    /\ linesFound = List.length (_noticesLines self).
Proof.
  intros H. destruct (check_inv _ _ _ _ _ H) as [text [Hfile Hloop]].
  exists text. split; [exact Hfile|]. split.
  - pose proof (check_loop_sound (_noticesLines self) (Str.readlines text) 0)
      as Hsound.
    rewrite Hloop in Hsound. exact (Hsound eq_refl).
  - pose proof (check_loop_count (_noticesLines self) (Str.readlines text) 0
                  (Nat.le_0_l _)) as [_ Hn].
    rewrite Hloop in Hn. now apply Hn.
Qed.

(** X2. When the notice lines are found in order in the lines of the file
    and at least one more line comes after them, [check] is OK, with the
    number of notice lines. *)
Theorem check_ok_when_line_follows (self : NoticesEditor) (fs : FS)
  (path : Path) (text : string) (front back : list string) :
  in_list (_effective_suffix path) _exempt_suffixes = false ->
  fs path = Some (File text) ->
  Str.readlines text = front ++ back ->
  OrderedIn (_noticesLines self) front ->
  back <> [] ->
  check self fs path = Ok (true, Some (List.length (_noticesLines self))).
Proof.
  intros Hexempt Hfile Hlines Hin Hback. unfold check, open_read.
  rewrite Hexempt, Hfile, Hlines.
  now rewrite (check_loop_found _ _ _ 0 (Nat.le_0_l _) Hin Hback).
Qed.

(** X3. A not-OK from [check] comes with a count that is at most the number
    of notice lines; that many notice lines, from the first, are in the file
    in order; and when the count is less than the number of notice lines, no
    longer start of the notices is in the file in order. *)
Theorem check_count_is_longest_prefix (self : NoticesEditor) (fs : FS)
  (path : Path) (linesFound : nat) :
  check self fs path = Ok (false, Some linesFound) ->
  exists text,
    fs path = Some (File text)
    /\ linesFound <= List.length (_noticesLines self)
    /\ OrderedIn (firstn linesFound (_noticesLines self)) (Str.readlines text)
    /\ (linesFound < List.length (_noticesLines self) ->
        ~ OrderedIn (firstn (S linesFound) (_noticesLines self))
            (Str.readlines text)).
Proof.
  intros H. destruct (check_inv _ _ _ _ _ H) as [text [Hfile Hloop]].
  exists text. split; [exact Hfile|].
  pose proof (check_loop_count (_noticesLines self) (Str.readlines text) 0
                (Nat.le_0_l _)) as [Hle _].
  pose proof (check_loop_prefix (_noticesLines self) (Str.readlines text) 0)
    as Hpre.
  pose proof (check_loop_maximal (_noticesLines self) (Str.readlines text) 0)
    as Hmax.
  rewrite Hloop in Hle, Hpre, Hmax. cbn [fst snd skipn] in *.
  repeat split; auto.
Qed.

Lemma effective_suffix_of_suffix (path : Path) :
  suffix path <> "" -> _effective_suffix path = suffix path.
Proof.
  intros H. unfold _effective_suffix.
  destruct (String.eqb_spec (suffix path) ""); [contradiction | reflexivity].
Qed.

(** X4. For a path whose suffix is [.png], [check] answers OK with no count
    and does not look at the file: the answer is the same when the path is a
    directory or does not exist. *)
Theorem check_exempt_suffix (self : NoticesEditor) (fs : FS) (path : Path) :
  suffix path = ".png" ->
  check self fs path = Ok (true, None).
Proof.
  intros H. unfold check.
  rewrite effective_suffix_of_suffix by (rewrite H; discriminate).
  now rewrite H.
Qed.

(** ** NoticesEditor: the notice lines and their XML comment *)

Lemma lstrip_head (s : string) : head_not_space (Str.lstrip s).
Proof.
  induction s as [|c s IH]; simpl; [trivial|].
  destruct (Str.isspace c) eqn:E; [exact IH | exact E].
Qed.

Lemma lstrip_fixed (s : string) : head_not_space s -> Str.lstrip s = s.
Proof. destruct s as [|c s]; simpl; [trivial|]. now intros ->. Qed.

Lemma rstrip_head (s : string) : head_not_space s -> head_not_space (Str.rstrip s).
Proof.
  destruct s as [|c s]; simpl; [trivial|]. intros E.
  destruct (Str.rstrip s); [rewrite E|]; exact E.
Qed.

Lemma rstrip_idem (s : string) : Str.rstrip (Str.rstrip s) = Str.rstrip s.
Proof.
  induction s as [|c s IH]; [reflexivity|]. cbn [Str.rstrip].
  destruct (Str.rstrip s) as [|d r] eqn:E.
  - destruct (Str.isspace c) eqn:S; [reflexivity|]. simpl. now rewrite S.
  - cbn [Str.rstrip]. cbn [Str.rstrip] in IH.
    destruct (match Str.rstrip r with
              | "" => if Str.isspace d then "" else String d ""
              | String a s0 => String d (String a s0)
              end) eqn:R; [discriminate|].
    now rewrite IH.
Qed.

Lemma strip_idem (s : string) : Str.strip (Str.strip s) = Str.strip s.
Proof.
  unfold Str.strip.
  rewrite (lstrip_fixed (Str.rstrip (Str.lstrip s)))
    by apply rstrip_head, lstrip_head.
  apply rstrip_idem.
Qed.

(** X5. The editor has one notice line for each line of the notices file;
    every notice line is trimmed (trimming it again changes nothing) and
    holds no line end. *)
Theorem notice_lines_trimmed (noticesText : string) :
  let self := NoticesEditor_of_text noticesText in
  List.length (_noticesLines self) = List.length (Str.readlines noticesText)
  /\ Forall (fun line => Str.strip line = line /\ Str.no_nl line)
       (_noticesLines self).
Proof.
  intros self. split.
  - unfold self, NoticesEditor_of_text. cbn [_noticesLines]. apply length_map.
  - apply Forall_forall. intros line Hin. split.
    + unfold self, NoticesEditor_of_text in Hin. cbn [_noticesLines] in Hin.
      apply in_map_iff in Hin. destruct Hin as [raw [<- _]]. apply strip_idem.
    + pose proof (noticesLines_no_nl noticesText) as H.
      rewrite Forall_forall in H. now apply H.
Qed.

(** X6. The XML rendering of the notices, read back line by line, is the
    line that opens the comment, then every notice line behind four spaces,
    then the line that closes the comment: two lines more than the
    notices, whatever the notices are. *)
Theorem noticesXML_read_back (noticesText : string) :
  let self := NoticesEditor_of_text noticesText in
  Str.readlines (_noticesXML self)
  = ("<!--" +:+ Str.nl)
    :: map (fun line => "    " +:+ line +:+ Str.nl) (_noticesLines self)
    ++ ["-->" +:+ Str.nl]
  /\ List.length (Str.readlines (_noticesXML self))
     = List.length (_noticesLines self) + 2.
Proof.
  intros self.
  assert (H : Str.readlines (_noticesXML self) = comment_lines self).
  { unfold self. rewrite noticesXML_lines.
    rewrite <- (append_nil_r (Str.cat _)).
    unfold comment_lines. rewrite (readlines_lines _ _ (comment_no_nl _)).
    apply app_nil_r. }
  rewrite H. unfold comment_lines. split.
  - cbn [app map]. rewrite map_app, map_map. reflexivity.
  - rewrite length_map, length_app. cbn [List.length]. rewrite length_map. lia.
Qed.

(** ** check on the edited text *)

(** X7. A file that holds what [xml_editor] writes passes [check], with the
    number of notice lines, whatever the original file and the notices are. *)
Theorem check_after_xml_editor (noticesText originalText : string)
  (fs : FS) (path : Path) :
  let self := NoticesEditor_of_text noticesText in
  in_list (_effective_suffix path) _exempt_suffixes = false ->
  fs path = Some (File (xml_editor self (Str.readlines originalText) "")) ->
  check self fs path = Ok (true, Some (List.length (_noticesLines self))).
Proof.
  intros self Hexempt Hfile. unfold check, open_read.
  rewrite Hexempt, Hfile. unfold self.
  now rewrite (xml_editor_check noticesText originalText).
Qed.

(** X8. A file that holds what [_leader_editor] writes passes [check]
    exactly when the original file was not empty; the count is the number
    of notice lines in both cases. *)
Theorem check_after_leader_editor
  (noticesText suffix commentLead originalText : string) (fs : FS) (path : Path) :
  let self := NoticesEditor_of_text noticesText in
  find_leader _leader_suffixes_map suffix = Some commentLead ->
  in_list (_effective_suffix path) _exempt_suffixes = false ->
  fs path
  = Some (File (_leader_editor self commentLead (Str.readlines originalText) "")) ->
  check self fs path
  = Ok (negb (String.eqb originalText ""),
        Some (List.length (_noticesLines self))).
Proof.
  intros self Hlead Hexempt Hfile. unfold check, open_read.
  rewrite Hexempt, Hfile. unfold self.
  destruct (String.eqb_spec originalText "") as [->|Hne].
  - now rewrite (leader_editor_check_empty noticesText _ _ Hlead).
  - now rewrite (leader_editor_check noticesText _ _ _ Hlead Hne).
Qed.

(** ** insert: what it leaves in the world *)

Section InsertWorld.

Variable context_diff : list string -> list string -> string -> string -> list string.

Lemma insert_run (self : NoticesEditor) (originalPath : Path)
  (originalText editedText : string) (w : World) :
  edited_text self originalPath originalText = Some editedText ->
  temp_path originalPath w <> originalPath ->
  fs w originalPath = Some (File originalText) ->
  insert context_diff self originalPath w
  = (Ok (temp_path originalPath w,
         context_diff (Str.readlines originalText) (Str.readlines editedText)
           originalPath "Edited"),
     mkWorld
       (write_file (write_file (fs w) (temp_path originalPath w) "")
          (temp_path originalPath w) editedText)
       (stdin w) (stdout w) (S (temps w)) (git_output w)).
Proof.
  intros Hedit Hfresh Hfile.
  assert (E1 : String.eqb originalPath (temp_path originalPath w) = false)
    by (apply String.eqb_neq; congruence).
  assert (E2 : String.eqb (temp_path originalPath w) (temp_path originalPath w)
               = true) by apply String.eqb_refl.
  unfold insert. revert Hedit. unfold edited_text, _custom_suffixes_map.
  cbn [dict_get].
  destruct (String.eqb ".xml" (_effective_suffix originalPath)).
  - intros [= <-].
    change (getattr_editor self "xml_editor") with (Some (xml_editor self)).
    repeat progress
      (cbv [bind NamedTemporaryFile lift open_read ret flush
              _editor_differences write_file];
       cbn [fs stdin stdout temps git_output fst snd];
       fold (temp_path originalPath w); rewrite ?E1, ?E2, ?Hfile).
    reflexivity.
  - destruct (find_leader _leader_suffixes_map _) as [commentLead|];
      [|discriminate].
    intros [= <-].
    repeat progress
      (cbv [bind NamedTemporaryFile lift open_read ret flush
              _editor_differences write_file];
       cbn [fs stdin stdout temps git_output fst snd];
       fold (temp_path originalPath w); rewrite ?E1, ?E2, ?Hfile).
    reflexivity.
Qed.

(** X9. [insert] on a readable file with a known suffix returns the path of
    a new temporary file and the differences between the original and the
    edited lines.  Afterwards the temporary file holds the edited text and
    every other file, the original among them, is as it was; nothing has
    been printed or read from the terminal. *)
Theorem insert_effect (self : NoticesEditor) (originalPath : Path)
  (originalText editedText : string) (w : World) :
  edited_text self originalPath originalText = Some editedText ->
  temp_path originalPath w <> originalPath ->
  fs w originalPath = Some (File originalText) ->
  let run := insert context_diff self originalPath w in
  fst run
  = Ok (temp_path originalPath w,
        context_diff (Str.readlines originalText) (Str.readlines editedText)
          originalPath "Edited")
  /\ fs (snd run) (temp_path originalPath w) = Some (File editedText)
  /\ (forall q, q <> temp_path originalPath w -> fs (snd run) q = fs w q)
  /\ stdin (snd run) = stdin w
  /\ stdout (snd run) = stdout w.
Proof.
  intros Hedit Hfresh Hfile run. unfold run.
  rewrite (insert_run _ _ _ _ _ Hedit Hfresh Hfile). cbn [fst snd fs stdin stdout].
  split; [reflexivity|]. split.
  - unfold write_file. now rewrite String.eqb_refl.
  - split; [|split; reflexivity].
    intros q Hq. unfold write_file.
    apply String.eqb_neq in Hq. now rewrite Hq.
Qed.

(** X10. When [insert] stops with an exception, it has changed one thing:
    the temporary file that it made is left behind, empty. *)
Theorem insert_failure_leaves_temp (self : NoticesEditor)
  (originalPath : Path) (w : World) (e : exn) :
  fst (insert context_diff self originalPath w) = Raised e ->
  snd (insert context_diff self originalPath w)
  = mkWorld (write_file (fs w) (temp_path originalPath w) "")
      (stdin w) (stdout w) (S (temps w)) (git_output w).
Proof.
  unfold insert, _custom_suffixes_map. cbn [dict_get].
  assert (E2 : String.eqb (temp_path originalPath w) (temp_path originalPath w)
               = true) by apply String.eqb_refl.
  assert (Hcases :
            String.eqb originalPath (temp_path originalPath w) = true
            \/ (String.eqb originalPath (temp_path originalPath w) = false
                /\ ((exists text, fs w originalPath = Some (File text))
                    \/ fs w originalPath = Some Dir
                    \/ fs w originalPath = None))).
  { destruct (String.eqb originalPath _); [now left | right].
    split; [reflexivity|].
    destruct (fs w originalPath) as [[|text]|]; eauto. }
  destruct (String.eqb ".xml" (_effective_suffix originalPath));
    [change (getattr_editor self "xml_editor") with (Some (xml_editor self))
    |destruct (find_leader _leader_suffixes_map _) as [commentLead|]];
    (destruct Hcases as [E1 | [E1 [[text Hf] | [Hf | Hf]]]];
     repeat progress
       (cbv [bind NamedTemporaryFile lift open_read ret flush raise
               _editor_differences write_file];
        cbn [fs stdin stdout temps git_output fst snd];
        fold (temp_path originalPath w); rewrite ?E1, ?E2, ?Hf);
     intros H; first [discriminate H | reflexivity]).
Qed.

End InsertWorld.

(** ** _ask_overwrite *)

Lemma ask_loop_turn (self : DuplicatorJob) (pathSource pathDestination : Path)
  (differences answers : list string) :
  ask_loop self pathSource pathDestination differences answers
  = (response <- (if yes self then ret "yes"
                  else (answer <- input "    Overwrite? (Y/n/?)" ;;
                        ret (Str.lower answer))) ;;
     if String.eqb response "" || Str.startswith response "y" then
       print "Overwriting." ;;;
       copy pathSource pathDestination ;;;
       ret (Some true)
     else if Str.startswith response "n" then
       print "Keeping" ;;;
       ret (Some false)
     else
       (if String.eqb response "?" then print (Str.cat differences)
        else print ("Unrecognised " +:+ Str.dq +:+ response +:+ Str.dq
                    +:+ ". Ctrl-C to quit.")) ;;;
       match answers with
       | [] => raise EOFError
       | _ :: answers' =>
           ask_loop self pathSource pathDestination differences answers'
       end).
Proof. destruct answers; reflexivity. Qed.

Lemma ask_overwrite_yes_run (self : DuplicatorJob)
  (pathSource pathDestination : Path) (differences : list string)
  (text : string) (w : World) :
  yes self = true ->
  fs w pathSource = Some (File text) ->
  _ask_overwrite self pathSource pathDestination (Some differences) w
  = (Ok (Some true),
     mkWorld (write_file (fs w) pathDestination text) (stdin w)
       ((let out :=
           stdout w +:+ ("    Different " +:+ Str.dq +:+ pathDestination
                         +:+ Str.dq) +:+ Str.nl in
         if verbose self then out +:+ Str.cat differences +:+ Str.nl else out)
        +:+ "Overwriting." +:+ Str.nl)
       (temps w) (git_output w)).
Proof.
  intros Hyes Hsrc. unfold _ask_overwrite.
  destruct (verbose self);
    cbv [bind print ret]; cbn [fs stdin stdout temps git_output];
    rewrite ask_loop_turn, Hyes;
    cbv [bind ret print copy open_read];
    change (String.eqb "yes" "" || Str.startswith "yes" "y") with true;
    cbv beta iota; cbn [fs stdin stdout temps git_output];
    rewrite Hsrc; reflexivity.
Qed.


(** Answers that are skipped at the prompt are read one by one; the loop
    goes on with the answers after them. *)
Lemma ask_loop_skip (self : DuplicatorJob) (pathSource pathDestination : Path)
  (differences junk rest : list string) (w : World) :
  yes self = false ->
  Forall (fun answer => accepts (Str.lower answer) = false
                        /\ rejects (Str.lower answer) = false) junk ->
  stdin w = junk ++ rest ->
  exists out,
    ask_loop self pathSource pathDestination differences (junk ++ rest) w
    = ask_loop self pathSource pathDestination differences rest
        (mkWorld (fs w) rest out (temps w) (git_output w)).
Proof.
  intros Hyes Hjunk. revert w.
  induction Hjunk as [|answer junk [Ha Hr] _ IH]; intros w Hin.
  - exists (stdout w). cbn [app] in *. destruct w; cbn in *. now subst.
  - unfold rejects in Hr. rewrite Ha in Hr. cbn [negb andb] in Hr.
    unfold accepts in Ha.
    cbn [app]. rewrite ask_loop_turn, Hyes. cbn [app] in Hin.
    set (w1 := mkWorld (fs w) (junk ++ rest)
                 (stdout w +:+ "    Overwrite? (Y/n/?)") (temps w)
                 (git_output w)).
    destruct (String.eqb (Str.lower answer) "?") eqn:Q.
    + destruct (IH (mkWorld (fs w) (junk ++ rest)
                      (stdout w1 +:+ Str.cat differences +:+ Str.nl)
                      (temps w) (git_output w)) eq_refl) as [out Hout].
      exists out. cbv [bind input ret print]. rewrite Hin.
      cbn [fs stdin stdout temps git_output]. rewrite Ha, Hr, Q.
      cbn [fs stdin stdout temps git_output]. exact Hout.
    + destruct (IH (mkWorld (fs w) (junk ++ rest)
                      (stdout w1
                       +:+ ("Unrecognised " +:+ Str.dq +:+ Str.lower answer
                            +:+ Str.dq +:+ ". Ctrl-C to quit.") +:+ Str.nl)
                      (temps w) (git_output w)) eq_refl) as [out Hout].
      exists out. cbv [bind input ret print]. rewrite Hin.
      cbn [fs stdin stdout temps git_output]. rewrite Ha, Hr, Q.
      cbn [fs stdin stdout temps git_output]. exact Hout.
Qed.

Lemma ask_overwrite_prelude (self : DuplicatorJob)
  (pathSource pathDestination : Path) (differences : list string) (w : World) :
  exists out,
    _ask_overwrite self pathSource pathDestination (Some differences) w
    = ask_loop self pathSource pathDestination differences (stdin w)
        (mkWorld (fs w) (stdin w) out (temps w) (git_output w)).
Proof.
  unfold _ask_overwrite. destruct (verbose self);
    cbv [bind print ret]; cbn [fs stdin stdout temps git_output];
    eexists; reflexivity.
Qed.

Lemma ask_loop_decide (self : DuplicatorJob) (pathSource pathDestination : Path)
  (differences : list string) (answer : string) (rest : list string) (w : World) :
  yes self = false ->
  stdin w = answer :: rest ->
  let run :=
    ask_loop self pathSource pathDestination differences (answer :: rest) w in
  (accepts (Str.lower answer) = true ->
   forall text, fs w pathSource = Some (File text) ->
   fst run = Ok (Some true)
   /\ fs (snd run) = write_file (fs w) pathDestination text
   /\ stdin (snd run) = rest)
  /\ (rejects (Str.lower answer) = true ->
      fst run = Ok (Some false)
      /\ fs (snd run) = fs w
      /\ stdin (snd run) = rest).
Proof.
  intros Hyes Hin run. unfold run. rewrite ask_loop_turn, Hyes.
  cbv [bind input ret]. rewrite Hin. cbn [fs stdin stdout temps git_output].
  split.
  - intros Ha text Hsrc. unfold accepts in Ha. rewrite Ha.
    cbv [bind print copy open_read ret].
    cbn [fs stdin stdout temps git_output]. rewrite Hsrc.
    cbn [fst snd fs stdin]. auto.
  - intros Hr. unfold rejects in Hr.
    apply andb_true_iff in Hr. destruct Hr as [Ha Hn].
    apply negb_true_iff in Ha. unfold accepts in Ha. rewrite Ha, Hn.
    cbv [bind print ret]. cbn [fst snd fs stdin]. auto.
Qed.


(** X13. Without [--yes], when the answers run out before a yes or a no has
    been typed, [_ask_overwrite] stops with [EOFError] and no file has
    changed. *)
Theorem ask_overwrite_no_decision (self : DuplicatorJob)
  (pathSource pathDestination : Path) (differences : list string) (w : World) :
  yes self = false ->
  Forall (fun answer => accepts (Str.lower answer) = false
                        /\ rejects (Str.lower answer) = false) (stdin w) ->
  let run :=
    _ask_overwrite self pathSource pathDestination (Some differences) w in
  fst run = Raised EOFError /\ fs (snd run) = fs w /\ stdin (snd run) = [].
Proof.
  intros Hyes Hjunk run. unfold run.
  destruct (ask_overwrite_prelude self pathSource pathDestination differences w)
    as [out0 ->].
  destruct (ask_loop_skip self pathSource pathDestination differences (stdin w)
              []
              (mkWorld (fs w) (stdin w) out0 (temps w) (git_output w))
              Hyes Hjunk (eq_sym (app_nil_r _))) as [out Hskip].
  rewrite app_nil_r in Hskip. cbn [fs temps git_output] in Hskip.
  rewrite Hskip.
  rewrite ask_loop_turn, Hyes. cbv [bind input ret].
  cbn [fs stdin stdout temps git_output fst snd]. auto.
Qed.



(** ** _notices_business *)

Section NoticesBusiness.

Variable context_diff : list string -> list string -> string -> string -> list string.

(** X15. With [--count], [_notices_business] changes no file, makes no
    temporary file and reads nothing from the terminal; for a file that
    [check] can read it returns 0 when [check] is OK and 1 when it is not. *)
Theorem notices_business_counting (self : DuplicatorJob)
  (noticesEditor : NoticesEditor) (path : Path) (w : World) :
  counting self = true ->
  let run := _notices_business context_diff self noticesEditor path w in
  fs (snd run) = fs w
  /\ stdin (snd run) = stdin w
  /\ temps (snd run) = temps w
  /\ (is_dir (fs w) path = false ->
      forall noticeOK linesFound,
        check noticesEditor (fs w) path = Ok (noticeOK, linesFound) ->
        fst run = Ok (Some (if noticeOK then 0 else 1))).
Proof.
  intros Hcount run. unfold run, _notices_business.
  cbv [bind lift ret]. rewrite Hcount.
  destruct (is_dir (fs w) path); [cbn [fst snd]; repeat split; discriminate|].
  destruct (check noticesEditor (fs w) path) as [[[|] found]|e].
  - destruct (verbose self); [destruct found|];
      cbv [print ret]; cbn [fst snd fs stdin temps];
      (repeat split; try reflexivity);
      intros _ ok count E; injection E as <- <-; reflexivity.
  - rewrite orb_false_r.
    destruct (verbose self);
      cbv [print ret]; cbn [fst snd fs stdin temps];
      (repeat split; try reflexivity);
      intros _ ok count E; injection E as <- <-; reflexivity.
  - cbn [fst snd]. repeat split. discriminate.
Qed.

Lemma is_dir_file (fs : FS) (path : Path) (text : string) :
  fs path = Some (File text) -> is_dir fs path = false.
Proof. unfold is_dir. now intros ->. Qed.

Lemma check_text (self : NoticesEditor) (fs : FS) (path : Path) (text : string) :
  in_list (_effective_suffix path) _exempt_suffixes = false ->
  fs path = Some (File text) ->
  check self fs path
  = Ok (fst (check_loop (_noticesLines self) (Str.readlines text) 0),
        Some (snd (check_loop (_noticesLines self) (Str.readlines text) 0))).
Proof.
  intros Hexempt Hfile. unfold check, open_read. rewrite Hexempt, Hfile.
  now destruct (check_loop _ _ 0).
Qed.

Lemma check_not_exempt (self : NoticesEditor) (fs : FS) (path : Path)
  (noticeOK : bool) (linesFound : nat) :
  check self fs path = Ok (noticeOK, Some linesFound) ->
  in_list (_effective_suffix path) _exempt_suffixes = false.
Proof.
  unfold check. destruct (in_list _ _); [discriminate | reflexivity].
Qed.

(** The text that [insert] writes passes [check] when it was written by
    [xml_editor], or for a file that was not empty. *)
Lemma edited_text_check (noticesText : string) (path : Path)
  (originalText editedText : string) :
  let self := NoticesEditor_of_text noticesText in
  edited_text self path originalText = Some editedText ->
  originalText <> ""
  \/ dict_get _custom_suffixes_map (_effective_suffix path) <> None ->
  check_loop (_noticesLines self) (Str.readlines editedText) 0
  = (true, List.length (_noticesLines self)).
Proof.
  intros self. unfold edited_text.
  destruct (dict_get _custom_suffixes_map _) as [name|].
  - intros [= <-] _. apply xml_editor_check.
  - destruct (find_leader _ _) as [commentLead|] eqn:Hlead; [|discriminate].
    intros [= <-] [Hne | Hc]; [|congruence].
    now apply (leader_editor_check noticesText _ _ _ Hlead).
Qed.

(** The run of [_notices_business] on a file without the notices, with
    [--yes] and without [--count]. *)
Lemma notices_business_yes_run (self : DuplicatorJob) (noticesText : string)
  (path : Path) (originalText editedText : string) (linesFound : nat)
  (w : World) :
  let noticesEditor := NoticesEditor_of_text noticesText in
  counting self = false ->
  yes self = true ->
  fs w path = Some (File originalText) ->
  check noticesEditor (fs w) path = Ok (false, Some linesFound) ->
  edited_text noticesEditor path originalText = Some editedText ->
  temp_path path w <> path ->
  originalText <> ""
  \/ dict_get _custom_suffixes_map (_effective_suffix path) <> None ->
  exists out,
    _notices_business context_diff self noticesEditor path w
    = (Ok (Some 1),
       mkWorld
         (write_file
            (write_file (write_file (fs w) (temp_path path w) "")
               (temp_path path w) editedText)
            path editedText)
         (stdin w) out (S (temps w)) (git_output w)).
Proof.
  intros noticesEditor Hcount Hyes Hfile Hcheck Hedit Hfresh Hsome.
  pose proof (check_not_exempt _ _ _ _ _ Hcheck) as Hexempt.
  pose proof (edited_text_check noticesText path _ _ Hedit Hsome) as Hok.
  fold noticesEditor in Hok.
  unfold _notices_business. cbv [bind lift ret].
  rewrite (is_dir_file _ _ _ Hfile), Hcheck, Hcount, orb_true_r.
  cbv [print]. cbn [negb].
  set (w0 := mkWorld (fs w) (stdin w) _ (temps w) (git_output w)).
  assert (Htmp : temp_path path w0 = temp_path path w) by reflexivity.
  rewrite (insert_run context_diff noticesEditor path originalText editedText w0
             Hedit Hfresh Hfile).
  rewrite Htmp. subst w0. cbn [fs stdin stdout temps git_output].
  match goal with
  | |- context [_ask_overwrite _ _ _ _ ?W] => set (w1 := W)
  end.
  assert (Hsrc : fs w1 (temp_path path w) = Some (File editedText)).
  { unfold w1, write_file. cbn [fs]. now rewrite String.eqb_refl. }
  rewrite (ask_overwrite_yes_run self (temp_path path w) path _ editedText w1
             Hyes Hsrc).
  subst w1. cbn [fs stdin stdout temps git_output].
  rewrite check_text with (text := editedText);
    [|exact Hexempt | unfold write_file; now rewrite String.eqb_refl].
  rewrite Hok. cbn [fst snd].
  destruct (verbose self); cbv [print ret];
    cbn [fs stdin stdout temps git_output]; eexists; reflexivity.
Qed.

(** X16. With [--yes] and without [--count], on a readable file with a
    known suffix that does not pass [check] and is XML or not empty,
    [_notices_business] overwrites the file with the edited text and
    returns 1; the only other file that changes is the new temporary file,
    and nothing is read from the terminal.  The file then passes [check]:
    [_notices_business] on it again returns 0 and changes no file. *)
Theorem notices_business_inserts (self : DuplicatorJob) (noticesText : string)
  (path : Path) (originalText editedText : string) (linesFound : nat)
  (w : World) :
  let noticesEditor := NoticesEditor_of_text noticesText in
  counting self = false ->
  yes self = true ->
  fs w path = Some (File originalText) ->
  check noticesEditor (fs w) path = Ok (false, Some linesFound) ->
  edited_text noticesEditor path originalText = Some editedText ->
  temp_path path w <> path ->
  originalText <> ""
  \/ dict_get _custom_suffixes_map (_effective_suffix path) <> None ->
  let run := _notices_business context_diff self noticesEditor path w in
  let again :=
    _notices_business context_diff self noticesEditor path (snd run) in
  fst run = Ok (Some 1)
  /\ fs (snd run) path = Some (File editedText)
  /\ (forall q, q <> path -> q <> temp_path path w -> fs (snd run) q = fs w q)
  /\ stdin (snd run) = stdin w
  /\ fst again = Ok (Some 0)
  /\ fs (snd again) = fs (snd run).
Proof.
  intros noticesEditor Hcount Hyes Hfile Hcheck Hedit Hfresh Hsome run again.
  destruct (notices_business_yes_run self noticesText path originalText
              editedText linesFound w Hcount Hyes Hfile Hcheck Hedit Hfresh
              Hsome) as [out Hrun].
  fold noticesEditor in Hrun.
  assert (Hfs : fs (snd run) path = Some (File editedText)).
  { unfold run. rewrite Hrun. cbn [snd fs]. unfold write_file.
    now rewrite String.eqb_refl. }
  split; [unfold run; now rewrite Hrun|]. split; [exact Hfs|]. split.
  { intros q Hq Hq'. unfold run. rewrite Hrun. cbn [snd fs]. unfold write_file.
    apply String.eqb_neq in Hq, Hq'. now rewrite Hq, Hq'. }
  split; [unfold run; now rewrite Hrun|].
  pose proof (check_not_exempt _ _ _ _ _ Hcheck) as Hexempt.
  pose proof (edited_text_check noticesText path _ _ Hedit Hsome) as Hok.
  fold noticesEditor in Hok.
  unfold again, _notices_business. cbv [bind lift ret].
  rewrite (is_dir_file _ _ _ Hfs), (check_text _ _ _ _ Hexempt Hfs), Hok.
  cbn [fst snd].
  destruct (verbose self); cbv [print ret]; cbn [fst snd fs]; split; reflexivity.
Qed.

(** X17. Without [--yes] and without [--count], when the first answer that
    decides is a no, [_notices_business] returns 0 and the file is as it
    was; the edited text stays in the temporary file, which is not
    removed; the answers after the no stay unread. *)
Theorem notices_business_refused (self : DuplicatorJob)
  (noticesEditor : NoticesEditor) (path : Path)
  (originalText editedText : string) (linesFound : nat)
  (junk : list string) (answer : string) (rest : list string) (w : World) :
  counting self = false ->
  yes self = false ->
  stdin w = junk ++ answer :: rest ->
  Forall (fun answer => accepts (Str.lower answer) = false
                        /\ rejects (Str.lower answer) = false) junk ->
  rejects (Str.lower answer) = true ->
  fs w path = Some (File originalText) ->
  check noticesEditor (fs w) path = Ok (false, Some linesFound) ->
  edited_text noticesEditor path originalText = Some editedText ->
  temp_path path w <> path ->
  let run := _notices_business context_diff self noticesEditor path w in
  fst run = Ok (Some 0)
  /\ fs (snd run) path = Some (File originalText)
  /\ fs (snd run) (temp_path path w) = Some (File editedText)
  /\ stdin (snd run) = rest.
Proof.
  intros Hcount Hyes Hin Hjunk Hno Hfile Hcheck Hedit Hfresh run.
  unfold run, _notices_business. cbv [bind lift ret].
  rewrite (is_dir_file _ _ _ Hfile), Hcheck, Hcount, orb_true_r.
  cbv [print]. cbn [negb].
  set (w0 := mkWorld (fs w) (stdin w) _ (temps w) (git_output w)).
  assert (Htmp : temp_path path w0 = temp_path path w) by reflexivity.
  rewrite (insert_run context_diff noticesEditor path originalText editedText w0
             Hedit Hfresh Hfile).
  rewrite Htmp. subst w0. cbn [fs stdin stdout temps git_output].
  match goal with
  | |- context [_ask_overwrite _ _ _ (Some ?D) ?W] =>
      set (w1 := W); set (differences := D)
  end.
  destruct (ask_overwrite_prelude self (temp_path path w) path differences w1)
    as [out0 Hpre].
  assert (Hin1 : stdin w1 = junk ++ answer :: rest) by exact Hin.
  rewrite Hin1 in Hpre.
  destruct (ask_loop_skip self (temp_path path w) path differences junk
              (answer :: rest)
              (mkWorld (fs w1) (junk ++ answer :: rest) out0 (temps w1)
                 (git_output w1)) Hyes Hjunk eq_refl) as [out Hskip].
  cbn [fs temps git_output] in Hskip.
  destruct (ask_loop_decide self (temp_path path w) path differences answer
              rest (mkWorld (fs w1) (answer :: rest) out (temps w1)
                      (git_output w1)) Hyes eq_refl) as [_ Hdecide].
  destruct (Hdecide Hno) as [Hr [Hfs Hstdin]].
  rewrite <- Hskip, <- Hpre in Hr, Hfs, Hstdin.
  destruct (_ask_overwrite self (temp_path path w) path (Some differences) w1)
    as [r w'].
  cbn [fst snd fs] in Hr, Hfs, Hstdin. subst r.
  cbn [fst snd]. rewrite Hfs, Hstdin. unfold w1, write_file. cbn [fs].
  apply String.eqb_neq in Hfresh. rewrite String.eqb_sym in Hfresh.
  rewrite Hfresh, String.eqb_refl, Hfile. auto.
Qed.

End NoticesBusiness.

(** ** __call__ in notice mode, counting *)

Section Counting.

Variable context_diff : list string -> list string -> string -> string -> list string.
Variable glob : string -> list Path.

Lemma notices_business_quiet_count (self : DuplicatorJob)
  (noticesEditor : NoticesEditor) (path : Path) (text : string) (w : World) :
  counting self = true ->
  verbose self = false ->
  fs w path = Some (File text) ->
  _notices_business context_diff self noticesEditor path w
  = (Ok (Some (if lacks_notices noticesEditor (fs w) path then 1 else 0)), w).
Proof.
  intros Hcount Hquiet Hfile. unfold _notices_business, lacks_notices.
  cbv [bind lift ret]. rewrite (is_dir_file _ _ _ Hfile), Hcount, Hquiet.
  unfold check, open_read. rewrite Hfile.
  destruct (in_list _ _); [reflexivity|].
  destruct (check_loop _ _ 0) as [[|] found]; reflexivity.
Qed.

Lemma notices_loop_quiet_count (self : DuplicatorJob)
  (noticesEditor : NoticesEditor) (paths : list Path)
  (originalsChecked edited : nat) (w : World) :
  counting self = true ->
  verbose self = false ->
  Forall (fun path => exists text, fs w path = Some (File text)) paths ->
  notices_loop context_diff self noticesEditor paths originalsChecked edited w
  = (Ok (originalsChecked + List.length paths,
         edited
         + List.length (filter (lacks_notices noticesEditor (fs w)) paths)),
     w).
Proof.
  intros Hcount Hquiet Hfiles. revert originalsChecked edited.
  induction Hfiles as [|path paths [text Hfile] _ IH]; intros checked edited.
  - cbn [notices_loop List.length filter]. unfold ret.
    now rewrite !Nat.add_0_r.
  - cbn [notices_loop]. unfold bind at 1.
    rewrite (notices_business_quiet_count _ _ _ _ _ Hcount Hquiet Hfile).
    unfold bind at 1. cbv [iadd ret]. rewrite IH.
    cbn [filter List.length].
    destruct (lacks_notices noticesEditor (fs w) path); cbn [List.length];
      rewrite <- !Nat.add_assoc; reflexivity.
Qed.

(** X18. A run in notice mode with [--count] and without [--verbose] over
    candidates that are all readable files (the paths given, or the paths of
    [git ls-files] when none is given) prints one line, [Checked:N.
    Edited:M.], with N the number of candidates and M the number of them
    that do not pass [check]; it changes no file and reads nothing. *)
Theorem call_counting_summary (self : DuplicatorJob) (noticesText : string)
  (w : World) :
  insertNotices self = true ->
  counting self = true ->
  verbose self = false ->
  fs w (notices self) = Some (File noticesText) ->
  let candidates :=
    match originals self with
    | [] => git_ls_parse (top self) (git_output w) ""
    | _ => originals self
    end in
  Forall (fun path => exists text, fs w path = Some (File text)) candidates ->
  call context_diff glob self w
  = (Ok tt,
     mkWorld (fs w) (stdin w)
       (stdout w
        +:+ ("Checked:" +:+ Str.of_nat (List.length candidates)
             +:+ ". Edited:"
             +:+ Str.of_nat
                   (List.length
                      (filter
                         (lacks_notices (NoticesEditor_of_text noticesText)
                            (fs w))
                         candidates))
             +:+ ".")
        +:+ Str.nl)
       (temps w) (git_output w)).
Proof.
  intros Hmode Hcount Hquiet Hnotices candidates Hfiles.
  unfold call. rewrite Hmode. unfold call_insertNotices.
  unfold bind at 1. unfold NoticesEditor_init.
  cbv [bind lift open_read ret]. rewrite Hnotices.
  subst candidates. destruct (originals self) as [|original rest].
  - cbn [notices_loop]. cbv [ret git_ls_files]. cbn [Nat.eqb].
    rewrite (notices_loop_quiet_count _ _ _ _ _ _ Hcount Hquiet Hfiles).
    cbn [Nat.add]. reflexivity.
  - rewrite (notices_loop_quiet_count _ _ _ _ _ _ Hcount Hquiet Hfiles).
    cbn [Nat.add List.length Nat.eqb]. reflexivity.
Qed.

End Counting.

(** ** git_ls_files *)




(** ** diff_each and diff_all on files that differ *)

Lemma readlines_inj (a b : string) :
  Str.readlines a = Str.readlines b -> a = b.
Proof.
  intros H. rewrite <- (cat_readlines a), <- (cat_readlines b). now rewrite H.
Qed.

Lemma fold_write (f : string -> string) (items : list string) (report : string) :
  fold_left (fun report item => write report (f item)) items report
  = report +:+ Str.cat (map f items).
Proof.
  revert report. induction items as [|item items IH]; intros report.
  - simpl. now rewrite append_nil_r.
  - cbn [fold_left map Str.cat fold_right]. rewrite IH. unfold write.
    now rewrite append_assoc.
Qed.

Section Differences.

Variable context_diff : list string -> list string -> string -> string -> list string.
Variable glob : string -> list Path.

Lemma diff_each_loop_tuples (fs : FS) (text : Path -> string)
  (pathLeft : Path) (paths : list Path) :
  (forall p, In p paths -> fs p = Some (File (text p))) ->
  diff_each_loop context_diff fs (map Yield paths)
    (Some (pathLeft, Str.readlines (text pathLeft)))
  = map (fun p => Yield (pathLeft, p, differences_between context_diff text pathLeft p))
      (filter (fun p => negb (String.eqb p pathLeft)) paths).
Proof.
  induction paths as [|p paths IH]; intros Hfs; [reflexivity|].
  cbn [map diff_each_loop filter]. unfold open_read.
  rewrite (Hfs p (or_introl eq_refl)).
  assert (IH' := IH (fun q Hq => Hfs q (or_intror Hq))).
  destruct (String.eqb p pathLeft); cbn [negb map]; [exact IH'|].
  now rewrite IH'.
Qed.

Lemma differences_none (text : Path -> string) (pathLeft path : Path) :
  (forall a b f t, context_diff a b f t = [] <-> a = b) ->
  differences_between context_diff text pathLeft path = None <-> text path = text pathLeft.
Proof.
  intros Hdiff. unfold differences_between.
  destruct (context_diff _ _ pathLeft path) as [|d ds] eqn:E; cbn.
  - apply Hdiff in E. apply readlines_inj in E. split; auto.
  - split; [discriminate|]. intros Heq. rewrite Heq in E.
    assert (Hnil := proj2 (Hdiff (Str.readlines (text pathLeft))
                             (Str.readlines (text pathLeft)) pathLeft path)
                      eq_refl).
    congruence.
Qed.

(** X20. On readable files, [diff_each] yields one tuple for every path
    that is not the baseline, in the order of the paths, with the baseline as
    its left path; the baseline is the first path, or the reference path when
    one is given.  The differences of a tuple are absent exactly when the
    file holds the same text as the baseline. *)
Theorem diff_each_tuples (fs : FS) (text : Path -> string)
  (first : Path) (others : list Path) (reference : Path) :
  (forall a b f t, context_diff a b f t = [] <-> a = b) ->
  (forall p, In p (first :: others) -> fs p = Some (File (text p))) ->
  diff_each context_diff fs (map Yield (first :: others)) None
  = map (fun p => Yield (first, p, differences_between context_diff text first p))
      (filter (fun p => negb (String.eqb p first)) others)
  /\ (fs reference = Some (File (text reference)) ->
      diff_each context_diff fs (map Yield (first :: others)) (Some reference)
      = map (fun p => Yield (reference, p, differences_between context_diff text reference p))
          (filter (fun p => negb (String.eqb p reference)) (first :: others)))
  /\ (forall pathLeft p,
        differences_between context_diff text pathLeft p = None <-> text p = text pathLeft).
Proof.
  intros Hdiff Hfs. split; [|split].
  - unfold diff_each. cbn [map diff_each_loop]. unfold open_read.
    rewrite (Hfs first (or_introl eq_refl)).
    apply diff_each_loop_tuples. intros p Hp. apply Hfs. now right.
  - intros Href. unfold diff_each, open_read. rewrite Href.
    now apply diff_each_loop_tuples.
  - intros pathLeft p. now apply differences_none.
Qed.

Lemma diff_all_collect_tuples (first : Path) (D : Path -> option (list string))
  (candidates found : list Path) (pathDifferences lineDifferences : list string) :
  diff_all_collect (map (fun p => Yield (first, p, D p)) candidates)
    (Some found) pathDifferences lineDifferences
  = Ok (Some (found ++ candidates),
        pathDifferences
        ++ filter (fun p => match D p with Some _ => true | None => false end)
             candidates,
        lineDifferences
        ++ flat_map (fun p => match D p with Some d => d | None => [] end)
             candidates).
Proof.
  revert found pathDifferences lineDifferences.
  induction candidates as [|p candidates IH]; intros found pd ld.
  - simpl. now rewrite !app_nil_r.
  - cbn [map diff_all_collect filter flat_map].
    destruct (D p) as [d|]; rewrite IH, <- !app_assoc; reflexivity.
Qed.

Lemma diff_all_collect_first (first : Path) (D : Path -> option (list string))
  (candidates : list Path) :
  candidates <> [] ->
  diff_all_collect (map (fun p => Yield (first, p, D p)) candidates)
    None [] []
  = Ok (Some (first :: candidates),
        filter (fun p => match D p with Some _ => true | None => false end)
          candidates,
        flat_map (fun p => match D p with Some d => d | None => [] end)
          candidates).
Proof.
  destruct candidates as [|c candidates]; [congruence|]. intros _.
  cbn [map diff_all_collect filter flat_map].
  destruct (D c) as [d|]; rewrite diff_all_collect_tuples; reflexivity.
Qed.

(** X21. Without [--verbose], for readable files of which at least one
    holds another text than the first, [diff_all] writes for the description
    the line [Differences], with the description and the first path, and
    then one line for each path whose text is not the text of the first
    path, in the order of the paths. *)
Theorem diff_all_reports_differences (self : DuplicatorJob) (fs : FS)
  (text : Path -> string) (description report : string)
  (first : Path) (others : list Path) :
  (forall a b f t, context_diff a b f t = [] <-> a = b) ->
  (forall p, In p (first :: others) -> fs p = Some (File (text p))) ->
  verbose self = false ->
  let differing :=
    filter (fun p => negb (String.eqb (text p) (text first)))
      (filter (fun p => negb (String.eqb p first)) others) in
  differing <> [] ->
  diff_all_body context_diff self fs description
    (map Yield (first :: others)) report
  = Ok (report
        +:+ ("Differences " +:+ description +:+ " " +:+ Str.dq +:+ first
             +:+ Str.dq +:+ Str.nl)
        +:+ Str.cat
              (map (fun p => "    " +:+ Str.dq +:+ p +:+ Str.dq +:+ Str.nl)
                 differing)).
Proof.
  intros Hdiff Hfs Hquiet differing Hsome.
  unfold diff_all_body, diff_each. cbn [map diff_each_loop]. unfold open_read.
  rewrite (Hfs first (or_introl eq_refl)).
  rewrite (diff_each_loop_tuples fs text first others)
    by (intros p Hp; apply Hfs; now right).
  set (candidates := filter (fun p => negb (String.eqb p first)) others) in *.
  assert (Hfilter :
            filter (fun p => match differences_between context_diff text first p with
                             | Some _ => true | None => false end) candidates
            = differing).
  { unfold differing. apply filter_ext. intros p.
    pose proof (differences_none text first p Hdiff) as Hnone.
    destruct (differences_between context_diff text first p) as [d|].
    - destruct (String.eqb_spec (text p) (text first)) as [E|_];
        [|reflexivity].
      apply Hnone in E. discriminate.
    - rewrite (proj1 Hnone eq_refl), String.eqb_refl. reflexivity. }
  assert (Hcand : candidates <> []).
  { intros E. unfold differing in Hsome. rewrite E in Hsome. now apply Hsome. }
  rewrite (diff_all_collect_first _ _ _ Hcand), Hfilter.
  destruct candidates as [|c candidates']; [congruence|].
  destruct differing as [|p0 differing']; [congruence|].
  cbn [List.length Nat.leb Nat.ltb nth]. rewrite Hquiet.
  rewrite fold_write. unfold write. now rewrite append_assoc.
Qed.

Lemma diff_each_loop_raised (fs : FS) (paths : list Path) (e : exn)
  (left : option (Path * list string)) :
  (forall p, In p paths -> exists text, fs p = Some (File text)) ->
  raised (diff_each_loop context_diff fs (map Yield paths ++ [Raise e]) left)
  = Some e.
Proof.
  revert left. induction paths as [|p paths IH]; intros left Hfs; [reflexivity|].
  cbn [map app diff_each_loop]. unfold open_read.
  destruct (Hfs p (or_introl eq_refl)) as [text ->].
  assert (IH' := fun l => IH l (fun q Hq => Hfs q (or_intror Hq))).
  destruct left as [[pathLeft linesLeft]|]; [|apply IH'].
  destruct (String.eqb p pathLeft); [apply IH'|].
  cbn [raised]. apply IH'.
Qed.

Lemma diff_all_collect_raised (tuples : list (event diff_tuple)) (e : exn)
  (pathsFound : option (list Path)) (pathDifferences lineDifferences : list string) :
  raised tuples = Some e ->
  diff_all_collect tuples pathsFound pathDifferences lineDifferences = Raised e.
Proof.
  revert pathsFound pathDifferences lineDifferences.
  induction tuples as [|[[[pathLeft path] d]|e'] tuples IH]; intros pf pd ld;
    cbn [raised diff_all_collect].
  - discriminate.
  - intros H. destruct d; now apply IH.
  - now intros [= ->].
Qed.

(** X22. When a pattern of a group has no match or one match only, and the
    files matched before it are readable, [diff_all] writes for the group
    the message of the [ValueError] of [glob_each] and a line end, and
    nothing about the files of the group that were compared before. *)
Theorem diff_all_reports_glob_failure (self : DuplicatorJob) (fs : FS)
  (description report : string) (pre : list string) (pattern : string)
  (post : list string) :
  Forall (matches_many glob) pre ->
  (forall p, In p (flat_map glob pre ++ glob pattern) ->
             exists text, fs p = Some (File text)) ->
  (glob pattern = [] ->
   diff_all_body context_diff self fs description
     (glob_each glob (pre ++ pattern :: post)) report
   = Ok (report
         +:+ ("Failed, no match for " +:+ Str.dq +:+ pattern +:+ Str.dq +:+ ".")
         +:+ Str.nl))
  /\ (forall sole,
         glob pattern = [sole] ->
         diff_all_body context_diff self fs description
           (glob_each glob (pre ++ pattern :: post)) report
         = Ok (report
               +:+ ("Failed, only one match for " +:+ Str.dq +:+ pattern
                    +:+ Str.dq +:+ ": " +:+ sole +:+ ".")
               +:+ Str.nl)).
Proof.
  intros Hpre Hfs. split.
  - intros E. unfold diff_all_body, diff_each.
    rewrite (glob_each_app glob _ _ Hpre). cbn [glob_each]. rewrite E.
    cbn [map List.length Nat.eqb app].
    rewrite (diff_all_collect_raised _ _ _ _ _
               (diff_each_loop_raised fs _ _ None
                  (fun p Hp => Hfs p (in_or_app _ _ _ (or_introl Hp))))).
    unfold write. now rewrite !append_assoc.
  - intros sole E.
    assert (Hr : forall p, In p (flat_map glob pre ++ [sole]) ->
                           exists text, fs p = Some (File text))
      by (intros p Hp; apply Hfs; now rewrite E).
    unfold diff_all_body, diff_each.
    rewrite (glob_each_app glob _ _ Hpre). cbn [glob_each]. rewrite E.
    cbn [map List.length Nat.eqb app nth].
    match goal with
    | |- context [map Yield (flat_map glob pre) ++ [Yield sole; Raise ?e]] =>
        change (map Yield (flat_map glob pre) ++ [Yield sole; Raise e])
          with (map Yield (flat_map glob pre) ++ map Yield [sole] ++ [Raise e])
    end.
    rewrite app_assoc, <- map_app.
    rewrite (diff_all_collect_raised _ _ _ _ _
               (diff_each_loop_raised fs _ _ None Hr)).
    unfold write. now rewrite !append_assoc.
Qed.

End Differences.

(** ** diff_all over the rule table *)

Section AuditRun.

Variable context_diff : list string -> list string -> string -> string -> list string.
Variable glob : string -> list Path.







End AuditRun.

(** ** Rules.patterns_matched_by *)

Lemma matched_in_spec (paths : list Path) (targetPath : Path) (matched : bool) :
  matched_in paths targetPath matched = true
  <-> In targetPath paths \/ matched = true.
Proof.
  induction paths as [|path paths IH]; cbn [matched_in In].
  - tauto.
  - destruct (String.eqb_spec path targetPath) as [->|Hne].
    + tauto.
    + rewrite IH. tauto.
Qed.

Section MatchedBy.

Variable glob : string -> list Path.

Lemma matched_patterns_spec (patterns : list string) (targetPath : Path)
  (matched : bool) :
  fold_left
    (fun matched pattern => matched_in (glob pattern) targetPath matched)
    patterns matched = true
  <-> (exists pattern, In pattern patterns /\ In targetPath (glob pattern))
      \/ matched = true.
Proof.
  revert matched. induction patterns as [|pattern patterns IH]; intros matched;
    cbn [fold_left].
  - split; [auto | intros [[x [[] _]] | H]; exact H].
  - rewrite IH, matched_in_spec. split.
    + intros [[x [Hx Hin]] | [Hin | Hm]]; eauto.
      * left. exists x. split; [now right | exact Hin].
      * left. exists pattern. split; [now left | exact Hin].
    + intros [[x [[<- | Hx] Hin]] | Hm]; eauto.
Qed.

(** X24. [patterns_matched_by] yields at most one rule.  The rule that it
    yields is the first rule of the table with a pattern that matches the
    target path; it yields nothing exactly when no pattern of any rule
    matches the target path. *)
Theorem patterns_matched_by_first (lists : list (string * list string))
  (targetPath : Path) :
  let covers (rule : string * list string) :=
    exists pattern, In pattern (snd rule) /\ In targetPath (glob pattern) in
  (patterns_matched_by_of glob lists targetPath = []
   /\ forall rule, In rule lists -> ~ covers rule)
  \/ (exists before rule after,
         lists = before ++ rule :: after
         /\ patterns_matched_by_of glob lists targetPath = [rule]
         /\ covers rule
         /\ forall earlier, In earlier before -> ~ covers earlier).
Proof.
  intros covers.
  induction lists as [|[description patterns] lists IH].
  - left. split; [reflexivity | intros rule []].
  - cbn [patterns_matched_by_of].
    pose proof (matched_patterns_spec patterns targetPath false) as Hspec.
    destruct (fold_left _ patterns false).
    + right. exists [], (description, patterns), lists.
      split; [reflexivity|]. split; [reflexivity|]. split.
      * destruct (proj1 Hspec eq_refl) as [H | H]; [exact H | discriminate].
      * intros earlier [].
    + assert (Hnot : ~ covers (description, patterns)).
      { intros H. assert (false = true) by (apply Hspec; now left).
        discriminate. }
      destruct IH as [[Hnil Hnone] | [before [rule [after [Heq [Hres [Hc He]]]]]]].
      * left. split; [exact Hnil|]. intros rule [<- | Hin]; auto.
      * right. exists ((description, patterns) :: before), rule, after.
        split; [now rewrite Heq|]. split; [exact Hres|]. split; [exact Hc|].
        intros earlier [<- | Hin]; auto.
Qed.

End MatchedBy.

(** ** process_original *)

Section ProcessOriginal.

Variable context_diff : list string -> list string -> string -> string -> list string.
Variable glob : string -> list Path.

Lemma overwrite_loop (self : DuplicatorJob) (original : Path) (T : string)
  (paths : list Path) (tail : list (event Path)) :
  yes self = true ->
  (forall a b f t, context_diff a b f t = [] -> a = b) ->
  forall w,
    fs w original = Some (File T) ->
    (forall p, In p paths -> exists text, fs w p = Some (File text)) ->
    exists w',
      for_diff_each_loop context_diff (map Yield paths ++ tail)
        (Some (original, Str.readlines T))
        (fun tuple =>
           let '(pathLeft, path, differences) := tuple in
           _ask_overwrite self pathLeft path differences ;;; ret tt) w
      = for_diff_each_loop context_diff tail
          (Some (original, Str.readlines T))
          (fun tuple =>
             let '(pathLeft, path, differences) := tuple in
             _ask_overwrite self pathLeft path differences ;;; ret tt) w'
      /\ (forall p, In p paths -> fs w' p = Some (File T))
      /\ (forall q, ~ In q paths -> fs w' q = fs w q)
      /\ (forall q, fs w q = Some (File T) -> fs w' q = Some (File T))
      /\ stdin w' = stdin w.
Proof.
  intros Hyes Hdiff.
  induction paths as [|p paths IH]; intros w Horiginal Hfs.
  - exists w. cbn [map app]. repeat split; auto. intros p [].
  - cbn [map app for_diff_each_loop]. unfold bind at 1. unfold lift, open_read.
    destruct (Hfs p (or_introl eq_refl)) as [text Hp]. rewrite Hp.
    assert (Hrest : forall q, In q paths -> exists t, fs w q = Some (File t))
      by (intros q Hq; apply Hfs; now right).
    destruct (String.eqb_spec p original) as [->|Hne].
    + destruct (IH w Horiginal Hrest) as [w' [Hrun [Hall [Hout [Hkeep Hin]]]]].
      exists w'. split; [exact Hrun|]. split.
      * intros q [<- | Hq]; auto.
      * split; [|split; assumption].
        intros q Hq. apply Hout. intros Hin'. apply Hq. now right.
    + destruct (0 <? List.length
                       (context_diff (Str.readlines T) (Str.readlines text)
                          original p)) eqn:Hlen.
      * unfold bind at 1. unfold bind at 1.
        rewrite (ask_overwrite_yes_run self original p _ T w Hyes Horiginal).
        cbv [ret].
        match goal with
        | |- context [for_diff_each_loop _ _ _ _ ?W] => set (w1 := W)
        end.
        assert (Ho1 : fs w1 original = Some (File T)).
        { unfold w1, write_file. cbn [fs].
          apply String.eqb_neq in Hne. rewrite String.eqb_sym in Hne.
          now rewrite Hne. }
        assert (Hr1 : forall q, In q paths -> exists t, fs w1 q = Some (File t)).
        { intros q Hq. unfold w1, write_file. cbn [fs].
          destruct (String.eqb q p); [eauto | now apply Hrest]. }
        destruct (IH w1 Ho1 Hr1) as [w' [Hrun [Hall [Hout [Hkeep Hin]]]]].
        exists w'. split; [exact Hrun|]. split; [|split; [|split]].
        -- intros q [<- | Hq]; [|now apply Hall].
           apply Hkeep. unfold w1, write_file. cbn [fs].
           now rewrite String.eqb_refl.
        -- intros q Hq. rewrite Hout by (intros Hq'; apply Hq; now right).
           unfold w1, write_file. cbn [fs].
           destruct (String.eqb_spec q p) as [->|_]; [|reflexivity].
           elim Hq. now left.
        -- intros q Hq. apply Hkeep. unfold w1, write_file. cbn [fs].
           destruct (String.eqb q p); [reflexivity | exact Hq].
        -- exact Hin.
      * assert (Hsame : text = T).
        { apply Nat.ltb_ge in Hlen.
          destruct (context_diff (Str.readlines T) (Str.readlines text)
                      original p) as [|d ds] eqn:E; [|cbn in Hlen; lia].
          apply Hdiff in E. apply readlines_inj in E. now symmetry. }
        subst text.
        unfold bind at 1. unfold bind at 1.
        cbv [_ask_overwrite bind print ret].
        match goal with
        | |- context [for_diff_each_loop _ _ _ _ ?W] => set (w1 := W)
        end.
        destruct (IH w1 Horiginal Hrest)
          as [w' [Hrun [Hall [Hout [Hkeep Hin]]]]].
        exists w'. split; [exact Hrun|]. split; [|split; [|split]].
        -- intros q [<- | Hq]; [now apply Hkeep | now apply Hall].
        -- intros q Hq. apply Hout. intros Hq'. apply Hq. now right.
        -- exact Hkeep.
        -- exact Hin.
Qed.

(** X25. With [--yes], when the rule that [patterns_matched_by] yields for
    the original has patterns with two matches or more each, and the
    original and the matched paths are readable files, [process_original]
    ends without an exception, and afterwards every matched path holds the
    text of the original.  No other file has changed and nothing has been
    read from the terminal. *)
Theorem process_original_yes (self : DuplicatorJob)
  (lists : list (string * list string)) (original description : string)
  (patterns : list string) (T : string) (w : World) :
  yes self = true ->
  (forall a b f t, context_diff a b f t = [] -> a = b) ->
  patterns_matched_by_of glob lists original = [(description, patterns)] ->
  Forall (matches_many glob) patterns ->
  fs w original = Some (File T) ->
  (forall p, In p (flat_map glob patterns) ->
             exists text, fs w p = Some (File text)) ->
  let run := process_original_of context_diff glob lists self original w in
  fst run = Ok tt
  /\ (forall p, In p (flat_map glob patterns) ->
                fs (snd run) p = Some (File T))
  /\ (forall q, ~ In q (flat_map glob patterns) -> fs (snd run) q = fs w q)
  /\ stdin (snd run) = stdin w.
Proof.
  intros Hyes Hdiff Hmatch Hmany Hfile Hfs run.
  assert (Hrun : exists w',
             run = (Ok tt, w')
             /\ (forall p, In p (flat_map glob patterns) ->
                           fs w' p = Some (File T))
             /\ (forall q, ~ In q (flat_map glob patterns) -> fs w' q = fs w q)
             /\ stdin w' = stdin w).
  { unfold run, process_original_of. rewrite Hmatch.
    cbn [process_matches]. rewrite (glob_each_all glob _ Hmany).
    unfold for_diff_each.
    unfold bind at 1. unfold bind at 1. unfold print at 1.
    unfold bind at 1. unfold bind at 1. unfold lift, open_read.
    cbn [fs]. rewrite Hfile.
    match goal with
    | |- context [for_diff_each_loop _ _ _ _ ?W] => set (w0 := W)
    end.
    destruct (overwrite_loop self original T (flat_map glob patterns) [] Hyes
                Hdiff w0 Hfile Hfs) as [w' [Hloop [Hall [Hout [_ Hin]]]]].
    rewrite app_nil_r in Hloop.
    rewrite Hloop. cbn [for_diff_each_loop]. cbv [ret]. cbn [Nat.add Nat.leb].
    exists w'. repeat split; assumption. }
  destruct Hrun as [w' [-> H]]. exact (conj eq_refl H).
Qed.

End ProcessOriginal.

(** ** __call__ in audit mode *)

Section AuditCall.

Variable context_diff : list string -> list string -> string -> string -> list string.
Variable glob : string -> list Path.

Lemma diff_all_stdout_loop_spec (self : DuplicatorJob)
  (globs : list (string * list (event Path))) (w : World) :
  let run := diff_all_stdout_loop context_diff self globs w in
  fs (snd run) = fs w
  /\ stdin (snd run) = stdin w
  /\ temps (snd run) = temps w
  /\ match diff_all_loop context_diff self (fs w) globs (stdout w) with
     | Ok report =>
         run = (Ok tt,
                mkWorld (fs w) (stdin w) report (temps w) (git_output w))
     | Raised e => fst run = Raised e
     end.
Proof.
  revert w. induction globs as [|[description paths] globs IH]; intros w.
  - cbn. destruct w; auto.
  - cbn [diff_all_stdout_loop diff_all_loop].
    destruct (diff_all_body context_diff self (fs w) description paths
                (stdout w)) as [report|e].
    + exact (IH (mkWorld (fs w) (stdin w) report (temps w) (git_output w))).
    + cbn. auto.
Qed.

(** X26. A run in audit mode with no original given is [diff_all] with the
    standard output as its report: it changes no file, makes no temporary
    file and reads nothing from the terminal; what it prints is the report
    of [diff_all], and it stops with the exception of [diff_all] when there
    is one. *)
Theorem call_audit_reads_only (self : DuplicatorJob) (w : World) :
  insertNotices self = false ->
  originals self = [] ->
  let run := call context_diff glob self w in
  fs (snd run) = fs w
  /\ stdin (snd run) = stdin w
  /\ temps (snd run) = temps w
  /\ (forall report,
        diff_all context_diff glob self (fs w) (stdout w) = Ok report ->
        run = (Ok tt, mkWorld (fs w) (stdin w) report (temps w) (git_output w)))
  /\ (forall e,
        diff_all context_diff glob self (fs w) (stdout w) = Raised e ->
        fst run = Raised e).
Proof.
  intros Hmode Hnone run.
  assert (Hrun : run = diff_all_stdout_loop context_diff self
                         (named_globs glob) w).
  { unfold run, call. rewrite Hmode, Hnone. reflexivity. }
  rewrite Hrun.
  destruct (diff_all_stdout_loop_spec self (named_globs glob) w)
    as [Hfs [Hin [Htemps Hreport]]].
  split; [exact Hfs|]. split; [exact Hin|]. split; [exact Htemps|].
  unfold diff_all. split.
  - intros report E. now rewrite E in Hreport.
  - intros e E. now rewrite E in Hreport.
Qed.

End AuditCall.

(** ** The further properties at the example trees *)

Lemma simple_diff_iff (a b : list string) (f t : string) :
  simple_diff a b f t = [] <-> a = b.
Proof.
  unfold simple_diff. destruct (list_eq_dec string_dec a b) as [E|E].
  - split; auto.
  - split; [discriminate | contradiction].
Defined.

Lemma check_ok_means_notices_present_witness :
  exists text,
    extra_fs "src/A.java" = Some (File text)
    /\ OrderedIn (_noticesLines example_editor) (Str.readlines text)
    /\ 2 = List.length (_noticesLines example_editor).
Proof.
  apply (check_ok_means_notices_present example_editor extra_fs "src/A.java" 2).
  reflexivity.
Defined.

Lemma check_ok_when_line_follows_witness :
  check example_editor extra_fs "src/A.java" = Ok (true, Some 2).
Proof.
  apply (check_ok_when_line_follows example_editor extra_fs "src/A.java"
           example_comment_java
           [ "// Copyright 2020 VMware, Inc." +:+ Str.nl;
             "// SPDX-License-Identifier: BSD-2-Clause" +:+ Str.nl ]
           [ Str.nl; "package a;" +:+ Str.nl ]).
  - reflexivity.
  - reflexivity.
  - reflexivity.
  - apply OrderedIn_here; [reflexivity|].
    apply OrderedIn_here; [reflexivity|]. constructor.
  - discriminate.
Defined.

Lemma check_count_is_longest_prefix_witness :
  exists text,
    extra_fs "src/half.py" = Some (File text)
    /\ 1 <= List.length (_noticesLines example_editor)
    /\ OrderedIn (firstn 1 (_noticesLines example_editor)) (Str.readlines text)
    /\ (1 < List.length (_noticesLines example_editor) ->
        ~ OrderedIn (firstn 2 (_noticesLines example_editor))
            (Str.readlines text)).
Proof.
  apply (check_count_is_longest_prefix example_editor extra_fs "src/half.py" 1).
  reflexivity.
Defined.

Lemma check_exempt_suffix_witness :
  check example_editor extra_fs "res/drawable/logo.png" = Ok (true, None).
Proof.
  apply (check_exempt_suffix example_editor extra_fs "res/drawable/logo.png").
  reflexivity.
Defined.

Lemma check_after_xml_editor_witness :
  check example_editor
    (write_file extra_fs "res/values.xml"
       (xml_editor example_editor (Str.readlines example_xml) ""))
    "res/values.xml"
  = Ok (true, Some 2).
Proof.
  apply (check_after_xml_editor example_notices example_xml
           (write_file extra_fs "res/values.xml"
              (xml_editor example_editor (Str.readlines example_xml) ""))
           "res/values.xml"); reflexivity.
Defined.

Lemma check_after_leader_editor_witness :
  check example_editor
    (write_file extra_fs "src/B.java"
       (_leader_editor example_editor "//"
          (Str.readlines ("package b;" +:+ Str.nl)) ""))
    "src/B.java"
  = Ok (true, Some 2).
Proof.
  apply (check_after_leader_editor example_notices ".java" "//"
           ("package b;" +:+ Str.nl)
           (write_file extra_fs "src/B.java"
              (_leader_editor example_editor "//"
                 (Str.readlines ("package b;" +:+ Str.nl)) ""))
           "src/B.java"); reflexivity.
Defined.

Lemma insert_effect_witness :
  fs (snd (insert simple_diff example_editor "res/values.xml" (extra_world [])))
    "/tmp/values_0.xml"
  = Some (File (xml_editor example_editor (Str.readlines example_xml) ""))
  /\ fs (snd (insert simple_diff example_editor "res/values.xml"
                (extra_world [])))
       "res/values.xml"
     = Some (File example_xml).
Proof.
  destruct (insert_effect simple_diff example_editor "res/values.xml"
              example_xml
              (xml_editor example_editor (Str.readlines example_xml) "")
              (extra_world []))
    as [_ [Htemp [Hothers _]]].
  - reflexivity.
  - vm_compute. discriminate.
  - reflexivity.
  - split; [exact Htemp|].
    rewrite (Hothers "res/values.xml"); [reflexivity|].
    vm_compute. discriminate.
Defined.

Lemma insert_failure_leaves_temp_witness :
  fs (snd (insert simple_diff example_editor "copyrightnotices.txt"
             (extra_world [])))
    "/tmp/copyrightnotices_0.txt"
  = Some (File "").
Proof.
  rewrite (insert_failure_leaves_temp simple_diff example_editor
             "copyrightnotices.txt" (extra_world [])
             (UnboundLocalError "commentLead")).
  - reflexivity.
  - reflexivity.
Defined.



Lemma ask_overwrite_no_decision_witness :
  fst (_ask_overwrite (extra_job false false []) "src/A.java" "src/B.java"
         (Some ["differences"]) (extra_world ["maybe"; "?"]))
  = Raised EOFError.
Proof.
  refine (proj1 (ask_overwrite_no_decision (extra_job false false [])
                   "src/A.java" "src/B.java" ["differences"]
                   (extra_world ["maybe"; "?"]) eq_refl _)).
  repeat constructor.
Defined.


Lemma notices_business_counting_witness :
  let run :=
    _notices_business simple_diff (extra_job true false []) example_editor
      "src/B.java" (extra_world []) in
  fs (snd run) = extra_fs /\ stdin (snd run) = [] /\ fst run = Ok (Some 1).
Proof.
  destruct (notices_business_counting simple_diff (extra_job true false [])
              example_editor "src/B.java" (extra_world []) eq_refl)
    as [Hfs [Hin [_ Hresult]]].
  split; [exact Hfs|]. split; [exact Hin|].
  exact (Hresult eq_refl false (Some 0) eq_refl).
Defined.

Lemma notices_business_inserts_witness :
  let run :=
    _notices_business simple_diff (extra_job false true []) example_editor
      "res/values.xml" (extra_world []) in
  fst run = Ok (Some 1)
  /\ fs (snd run) "res/values.xml"
     = Some (File (xml_editor example_editor (Str.readlines example_xml) "")).
Proof.
  destruct (notices_business_inserts simple_diff (extra_job false true [])
              example_notices "res/values.xml" example_xml
              (xml_editor example_editor (Str.readlines example_xml) "")
              0 (extra_world []))
    as [Hr [Hfs _]].
  - reflexivity.
  - reflexivity.
  - reflexivity.
  - reflexivity.
  - reflexivity.
  - vm_compute. discriminate.
  - right. vm_compute. discriminate.
  - split; [exact Hr | exact Hfs].
Defined.

Lemma notices_business_refused_witness :
  let run :=
    _notices_business simple_diff (extra_job false false []) example_editor
      "src/B.java" (extra_world ["?"; "n"; "y"]) in
  fst run = Ok (Some 0)
  /\ fs (snd run) "src/B.java" = Some (File ("package b;" +:+ Str.nl))
  /\ fs (snd run) "/tmp/B_0.java"
     = Some (File (_leader_editor example_editor "//"
                     (Str.readlines ("package b;" +:+ Str.nl)) ""))
  /\ stdin (snd run) = ["y"].
Proof.
  refine (notices_business_refused simple_diff (extra_job false false [])
            example_editor "src/B.java" ("package b;" +:+ Str.nl)
            (_leader_editor example_editor "//"
               (Str.readlines ("package b;" +:+ Str.nl)) "")
            0 ["?"] "n" ["y"] (extra_world ["?"; "n"; "y"])
            eq_refl eq_refl eq_refl _ eq_refl eq_refl eq_refl eq_refl _).
  - repeat constructor.
  - vm_compute. discriminate.
Defined.

Lemma call_counting_summary_witness :
  call simple_diff example_glob
    (extra_job true false ["src/A.java"; "src/B.java"; "src/half.py"])
    (extra_world [])
  = (Ok tt,
     mkWorld extra_fs [] ("Checked:3. Edited:2." +:+ Str.nl) 0 "").
Proof.
  refine (call_counting_summary simple_diff example_glob
            (extra_job true false ["src/A.java"; "src/B.java"; "src/half.py"])
            example_notices (extra_world []) eq_refl eq_refl eq_refl eq_refl _).
  repeat constructor; eexists; reflexivity.
Defined.


Lemma audit_fs_text (p : Path) :
  In p ["baseJava/styles.xml"; "baseKotlin/styles.xml"; "clientJava/styles.xml"] ->
  audit_fs p = Some (File (audit_text p)).
Proof. intros [<- | [<- | [<- | []]]]; reflexivity. Defined.

Lemma diff_each_tuples_witness :
  diff_each simple_diff audit_fs
    (map Yield
       ["baseJava/styles.xml"; "baseKotlin/styles.xml"; "clientJava/styles.xml"])
    None
  = [ Yield ("baseJava/styles.xml", "baseKotlin/styles.xml",
             Some [ "*** baseJava/styles.xml" +:+ Str.nl;
                    "--- baseKotlin/styles.xml" +:+ Str.nl ]);
      Yield ("baseJava/styles.xml", "clientJava/styles.xml", None) ].
Proof.
  refine (proj1 (diff_each_tuples simple_diff audit_fs audit_text
                   "baseJava/styles.xml"
                   ["baseKotlin/styles.xml"; "clientJava/styles.xml"]
                   "clientJava/styles.xml" simple_diff_iff _)).
  exact audit_fs_text.
Defined.

Lemma diff_all_reports_differences_witness :
  diff_all_body simple_diff (audit_job false) audit_fs "styles"
    (map Yield
       ["baseJava/styles.xml"; "baseKotlin/styles.xml"; "clientJava/styles.xml"])
    ""
  = Ok (("Differences styles " +:+ Str.dq +:+ "baseJava/styles.xml" +:+ Str.dq
         +:+ Str.nl)
        +:+ "    " +:+ Str.dq +:+ "baseKotlin/styles.xml" +:+ Str.dq +:+ Str.nl).
Proof.
  refine (diff_all_reports_differences simple_diff (audit_job false) audit_fs
            audit_text "styles" "" "baseJava/styles.xml"
            ["baseKotlin/styles.xml"; "clientJava/styles.xml"]
            simple_diff_iff _ eq_refl _).
  - exact audit_fs_text.
  - vm_compute. discriminate.
Defined.


Lemma diff_all_reports_glob_failure_witness :
  diff_all_body simple_diff (audit_job false) audit_fs "styles"
    (glob_each example_glob ["base*/**/styles.xml"; "client*/**/styles.xml"])
    ""
  = Ok (("Failed, only one match for " +:+ Str.dq +:+ "client*/**/styles.xml"
         +:+ Str.dq +:+ ": clientJava/styles.xml.")
        +:+ Str.nl).
Proof.
  refine (proj2 (diff_all_reports_glob_failure simple_diff example_glob
                   (audit_job false) audit_fs "styles" ""
                   ["base*/**/styles.xml"] "client*/**/styles.xml" [] _ _)
            "clientJava/styles.xml" eq_refl).
  - constructor; [exact example_glob_styles | constructor].
  - intros p [<- | [<- | [<- | []]]]; eexists; reflexivity.
Defined.


Lemma process_original_yes_witness :
  let run :=
    process_original_of simple_diff example_glob
      [("styles", ["base*/**/styles.xml"])] (audit_job true)
      "baseJava/styles.xml" audit_world in
  fst run = Ok tt
  /\ fs (snd run) "baseKotlin/styles.xml" = Some (File example_styles).
Proof.
  destruct (process_original_yes simple_diff example_glob (audit_job true)
              [("styles", ["base*/**/styles.xml"])] "baseJava/styles.xml"
              "styles" ["base*/**/styles.xml"] example_styles audit_world)
    as [Hr [Hall _]].
  - reflexivity.
  - intros a b f t H. now apply simple_diff_iff in H.
  - reflexivity.
  - constructor; [exact example_glob_styles | constructor].
  - reflexivity.
  - intros p [<- | [<- | []]]; eexists; reflexivity.
  - split; [exact Hr|]. apply Hall. right. now left.
Defined.

Lemma call_audit_reads_only_witness :
  fs (snd (call simple_diff example_glob (audit_job false) audit_world))
  = audit_fs.
Proof.
  exact (proj1 (call_audit_reads_only simple_diff example_glob
                  (audit_job false) audit_world eq_refl eq_refl)).
Defined.

(** ** process_original and diff_all: what stops them *)

Lemma trace_split {A} (t : list (event A)) (e : exn) :
  raised t = Some e ->
  exists rest, t = map Yield (yielded t) ++ Raise e :: rest.
Proof.
  induction t as [|[a|e'] t IH]; cbn [raised yielded map app].
  - discriminate.
  - intros H. destruct (IH H) as [rest Hrest]. exists rest. now rewrite <- Hrest.
  - intros [= ->]. now exists t.
Qed.

Section Failures.

Variable context_diff : list string -> list string -> string -> string -> list string.
Variable glob : string -> list Path.



(** X28. With [--yes], when [glob_each] raises for a pattern of the rule
    that governs the original, [process_original] stops with that
    exception; by then every path that [glob_each] had yielded holds the
    text of the original, and no other file has changed. *)
Theorem process_original_glob_failure (self : DuplicatorJob)
  (lists : list (string * list string)) (original description : string)
  (patterns : list string) (T : string) (e : exn) (w : World) :
  yes self = true ->
  (forall a b f t, context_diff a b f t = [] -> a = b) ->
  patterns_matched_by_of glob lists original = [(description, patterns)] ->
  raised (glob_each glob patterns) = Some e ->
  fs w original = Some (File T) ->
  (forall p, In p (yielded (glob_each glob patterns)) ->
             exists text, fs w p = Some (File text)) ->
  let run := process_original_of context_diff glob lists self original w in
  fst run = Raised e
  /\ (forall p, In p (yielded (glob_each glob patterns)) ->
                fs (snd run) p = Some (File T))
  /\ (forall q, ~ In q (yielded (glob_each glob patterns)) ->
                fs (snd run) q = fs w q).
Proof.
  intros Hyes Hdiff Hmatch Hraised Hfile Hfs run.
  assert (Hrun : exists w',
             run = (Raised e, w')
             /\ (forall p, In p (yielded (glob_each glob patterns)) ->
                           fs w' p = Some (File T))
             /\ (forall q, ~ In q (yielded (glob_each glob patterns)) ->
                           fs w' q = fs w q)).
  { unfold run, process_original_of. rewrite Hmatch.
    cbn [process_matches].
    destruct (trace_split _ _ Hraised) as [rest Hsplit].
    remember (yielded (glob_each glob patterns)) as paths eqn:Hpaths.
    rewrite Hsplit. clear Hsplit Hpaths.
    unfold for_diff_each.
    unfold bind at 1. unfold bind at 1. unfold print at 1.
    unfold bind at 1. unfold bind at 1. unfold lift, open_read.
    cbn [fs]. rewrite Hfile.
    match goal with
    | |- context [for_diff_each_loop _ _ _ _ ?W] => set (w0 := W)
    end.
    destruct (overwrite_loop context_diff self original T paths
                (Raise e :: rest) Hyes
                Hdiff w0 Hfile Hfs) as [w' [Hloop [Hall [Hout _]]]].
    rewrite Hloop. cbn [for_diff_each_loop]. cbv [raise].
    exists w'. repeat split; assumption. }
  destruct Hrun as [w' [-> H]]. exact (conj eq_refl H).
Qed.

End Failures.

Section Unreadable.

Variable context_diff : list string -> list string -> string -> string -> list string.

Lemma diff_each_loop_unreadable (fs : FS) (pre : list Path) (p : Path)
  (rest : list (event Path)) (left : option (Path * list string)) :
  (forall q, In q pre -> exists text, fs q = Some (File text)) ->
  (forall text, fs p <> Some (File text)) ->
  raised (diff_each_loop context_diff fs (map Yield pre ++ Yield p :: rest) left)
  = Some (OSError p).
Proof.
  intros Hpre Hp. revert left.
  induction pre as [|q pre IH]; intros left.
  - cbn [map app diff_each_loop]. unfold open_read.
    destruct (fs p) as [[|text]|] eqn:E; try reflexivity.
    elim (Hp text). reflexivity.
  - cbn [map app diff_each_loop]. unfold open_read.
    destruct (Hpre q (or_introl eq_refl)) as [text ->].
    assert (IH' := IH (fun x Hx => Hpre x (or_intror Hx))).
    destruct left as [[pathLeft linesLeft]|]; [|apply IH'].
    destruct (String.eqb q pathLeft); [apply IH'|].
    cbn [raised]. apply IH'.
Qed.

(** X29. When a path that comes to [diff_each] is not a readable file (a
    directory, or a path that is gone) and the paths before it are readable,
    [diff_all] does not report the group: it stops with [OSError] for that
    path, and the groups after it are not audited. *)
Theorem diff_all_stops_at_unreadable (self : DuplicatorJob) (fs : FS)
  (description report : string) (pre : list Path) (p : Path)
  (rest : list (event Path)) (globs : list (string * list (event Path))) :
  (forall q, In q pre -> exists text, fs q = Some (File text)) ->
  (forall text, fs p <> Some (File text)) ->
  diff_all_body context_diff self fs description
    (map Yield pre ++ Yield p :: rest) report
  = Raised (OSError p)
  /\ diff_all_loop context_diff self fs
       ((description, map Yield pre ++ Yield p :: rest) :: globs) report
     = Raised (OSError p).
Proof.
  intros Hpre Hp.
  assert (Hbody : diff_all_body context_diff self fs description
                    (map Yield pre ++ Yield p :: rest) report
                  = Raised (OSError p)).
  { unfold diff_all_body, diff_each.
    now rewrite (diff_all_collect_raised _ _ _ _ _
                   (diff_each_loop_unreadable fs pre p rest None Hpre Hp)). }
  split; [exact Hbody|]. cbn [diff_all_loop]. now rewrite Hbody.
Qed.

End Unreadable.


Lemma process_original_glob_failure_witness :
  let run :=
    process_original_of simple_diff example_glob
      [("styles", ["base*/**/styles.xml"; "client*/**/styles.xml"])]
      (audit_job true) "baseJava/styles.xml" audit_world in
  fst run
  = Raised (ValueError
              ("Failed, only one match for " +:+ Str.dq
               +:+ "client*/**/styles.xml" +:+ Str.dq
               +:+ ": clientJava/styles.xml."))
  /\ fs (snd run) "baseKotlin/styles.xml" = Some (File example_styles).
Proof.
  destruct (process_original_glob_failure simple_diff example_glob
              (audit_job true)
              [("styles", ["base*/**/styles.xml"; "client*/**/styles.xml"])]
              "baseJava/styles.xml" "styles"
              ["base*/**/styles.xml"; "client*/**/styles.xml"] example_styles
              (ValueError
                 ("Failed, only one match for " +:+ Str.dq
                  +:+ "client*/**/styles.xml" +:+ Str.dq
                  +:+ ": clientJava/styles.xml."))
              audit_world)
    as [Hr [Hall _]].
  - reflexivity.
  - intros a b f t H. now apply simple_diff_iff in H.
  - reflexivity.
  - reflexivity.
  - reflexivity.
  - intros p [<- | [<- | [<- | []]]]; eexists; reflexivity.
  - split; [exact Hr|]. apply Hall. right. now left.
Defined.

Lemma diff_all_stops_at_unreadable_witness :
  diff_all_body simple_diff (audit_job false) example_fs "resources"
    (map Yield ["app/res/strings.xml"; "app/res"; "app/noticed.py"]) ""
  = Raised (OSError "app/res").
Proof.
  refine (proj1 (diff_all_stops_at_unreadable simple_diff (audit_job false)
                   example_fs "resources" "" ["app/res/strings.xml"] "app/res"
                   [Yield "app/noticed.py"] [] _ _)).
  - intros q [<- | []]. eexists. reflexivity.
  - intros text H. discriminate H.
Defined.
